(** * Mathematical-Fun-Game: the Gemini service and the live preview

    A shallow embedding of [services/gemini.ts] ([bringToLife],
    [refineApp], [analyzeCode]) and of the handlers of
    [components/LivePreview.tsx] ([handleExport], [handleToggleAnalysis]
    and the creation-change effect).

    JavaScript strings are sequences of UTF-16 code units, so a string is
    a [list N].  The remote model is part of the world the asynchronous
    functions run in: a call appends the request to the log of calls and
    settles with what the world's model answers. *)

From Stdlib Require Import List NArith ZArith QArith String Ascii Bool Lia.
Import ListNotations.
Local Open Scope nat_scope.
Local Open Scope list_scope.

(** ** JavaScript strings *)

Module JS.

Definition jsstring := list N.

(** An ASCII literal of the source, as code units. *)
Definition u (s : string) : jsstring :=
  List.map N_of_ascii (list_ascii_of_string s).

Definition nl : jsstring := [10%N].
Definition dq : jsstring := [34%N].

Fixpoint eqb (s t : jsstring) : bool :=
  match s, t with
  | [], [] => true
  | a :: s', b :: t' => N.eqb a b && eqb s' t'
  | _, _ => false
  end.

(** [ToBoolean] on a string: only the empty string is falsy. *)
Definition truthy (s : jsstring) : bool :=
  match s with [] => false | _ :: _ => true end.

(** [ToBoolean] on [string | undefined] (and on [string | null]). *)
Definition truthy_opt (o : option jsstring) : bool :=
  match o with Some s => truthy s | None => false end.

(** [a || b] where [a : string | undefined] and [b : string]. *)
Definition or_else (a : option jsstring) (b : jsstring) : jsstring :=
  match a with
  | Some s => if truthy s then s else b
  | None => b
  end.

(** The class [\s] of a regular expression, which is also what
    [String.prototype.trim] removes: WhiteSpace and LineTerminator. *)
Definition is_white (c : N) : bool :=
  (N.leb 9 c && N.leb c 13)          (* TAB LF VT FF CR *)
  || N.eqb c 32                      (* SP *)
  || N.eqb c 160                     (* NBSP *)
  || N.eqb c 5760                    (* U+1680 *)
  || (N.leb 8192 c && N.leb c 8202)  (* U+2000 .. U+200A *)
  || N.eqb c 8232 || N.eqb c 8233    (* LS PS *)
  || N.eqb c 8239                    (* U+202F *)
  || N.eqb c 8287                    (* U+205F *)
  || N.eqb c 12288                   (* U+3000 *)
  || N.eqb c 65279.                  (* U+FEFF *)

(** A greedy [\s*] at the head of a string: what is left after it. *)
Fixpoint skip_white (s : jsstring) : jsstring :=
  match s with
  | [] => []
  | c :: s' => if is_white c then skip_white s' else s
  end.

Definition trim (s : jsstring) : jsstring :=
  rev (skip_white (rev (skip_white s))).

(** What follows the literal [p] when [s] starts with it. *)
Fixpoint strip_prefix (p s : jsstring) : option jsstring :=
  match p, s with
  | [], _ => Some s
  | a :: p', b :: s' => if N.eqb a b then strip_prefix p' s' else None
  | _ :: _, [] => None
  end.

Definition startsWith (s p : jsstring) : bool :=
  match strip_prefix p s with Some _ => true | None => false end.

(** Whether the first code unit of [s] is white space. *)
Definition startsWhite (s : jsstring) : bool :=
  match s with c :: _ => is_white c | [] => false end.

(** [s.replace(/^lit\s*/, '')]: the pattern is anchored at the start
    (no [m] flag) and is not global, so it matches at index 0 or nowhere. *)
Definition replace_head_ws (lit s : jsstring) : jsstring :=
  match strip_prefix lit s with
  | Some rest => skip_white rest
  | None => s
  end.

(** [s.replace(/lit$/, '')]: the search tries every start index from the
    left; the pattern matches at an index when exactly [lit] is left there. *)
Fixpoint replace_tail (lit s : jsstring) : jsstring :=
  if eqb s lit then []
  else match s with
       | [] => []
       | c :: s' => c :: replace_tail lit s'
       end.

Definition endsWith (s p : jsstring) : bool :=
  eqb (skipn (List.length s - List.length p) s) p.

(** [A-Za-z0-9]: the characters that [/[^a-z0-9]/gi] does not match.
    Without the [u] flag, case folding never maps a code unit above 127
    to an ASCII one, so no other unit is spared. *)
Definition is_alnum (c : N) : bool :=
  (N.leb 48 c && N.leb c 57) || (N.leb 65 c && N.leb c 90)
  || (N.leb 97 c && N.leb c 122).

(** [s.replace(/[^a-z0-9]/gi, '_')] *)
Definition replace_non_alnum (s : jsstring) : jsstring :=
  List.map (fun c => if is_alnum c then c else 95%N) s.

Definition is_ascii (c : N) : bool := N.ltb c 128.

(** [toLowerCase] on a code unit below 128. *)
Definition lower_ascii (c : N) : N :=
  if N.leb 65 c && N.leb c 90 then (c + 32)%N else c.

End JS.
Import JS.

(** ** services/gemini.ts *)

Module Gemini.

Definition fence : jsstring := u "```".
Definition fence_html : jsstring := u "```html".

(** [text.replace(/^```html\s*/, '').replace(/^```\s*/, '').replace(/```$/, '')],
    the cleanup both [bringToLife] and [refineApp] apply. *)
Definition cleanup (text : jsstring) : jsstring :=
  replace_tail fence (replace_head_ws fence (replace_head_ws fence_html text)).

(** A text that carries a leading or a trailing fence marker. *)
Definition fenced (text : jsstring) : bool :=
  startsWith text fence || endsWith text fence.



(** [const GEMINI_MODEL] *)
Definition GEMINI_MODEL : jsstring := u "gemini-3-pro-preview".

(** System instruction of [bringToLife]. *)
Definition SYSTEM_INSTRUCTION : jsstring :=
  u "You are an expert AI Engineer and Product Designer specializing in " ++ dq ++ u "bringing artifacts to life" ++ dq ++ u "." ++ nl
  ++ u "Your goal is to take a user uploaded file" ++ [8212%N] ++ u "which might be a polished UI design, a messy napkin sketch, a photo of a whiteboard with jumbled notes, or a picture of a real-world object (like a messy desk)" ++ [8212%N] ++ u "and instantly generate a fully functional, interactive, single-page HTML/JS/CSS application." ++ nl
  ++ nl
  ++ u "CORE DIRECTIVES:" ++ nl
  ++ u "1. **Analyze & Abstract**: Look at the image." ++ nl
  ++ u "    - **Sketches/Wireframes**: Detect buttons, inputs, and layout. Turn them into a modern, clean UI." ++ nl
  ++ u "    - **Real-World Photos (Mundane Objects)**: If the user uploads a photo of a desk, a room, or a fruit bowl, DO NOT just try to display it. **Gamify it** or build a **Utility** around it." ++ nl
  ++ u "      - *Cluttered Desk* -> Create a " ++ dq ++ u "Clean Up" ++ dq ++ u " game where clicking items (represented by emojis or SVG shapes) clears them, or a Trello-style board." ++ nl
  ++ u "      - *Fruit Bowl* -> A nutrition tracker or a still-life painting app." ++ nl
  ++ u "    - **Documents/Forms**: specific interactive wizards or dashboards." ++ nl
  ++ nl
  ++ u "2. **NO EXTERNAL IMAGES**:" ++ nl
  ++ u "    - **CRITICAL**: Do NOT use <img src=" ++ dq ++ u "..." ++ dq ++ u "> with external URLs (like imgur, placeholder.com, or generic internet URLs). They will fail." ++ nl
  ++ u "    - **INSTEAD**: Use **CSS shapes**, **inline SVGs**, **Emojis**, or **CSS gradients** to visually represent the elements you see in the input." ++ nl
  ++ u "    - If you see a " ++ dq ++ u "coffee cup" ++ dq ++ u " in the input, render a " ++ [9749%N] ++ u " emoji or draw a cup with CSS. Do not try to load a jpg of a coffee cup." ++ nl
  ++ nl
  ++ u "3. **Make it Interactive**: The output MUST NOT be static. It needs buttons, sliders, drag-and-drop, or dynamic visualizations." ++ nl
  ++ u "4. **Self-Contained**: The output must be a single HTML file with embedded CSS (<style>) and JavaScript (<script>). No external dependencies unless absolutely necessary (Tailwind via CDN is allowed)." ++ nl
  ++ u "5. **Robust & Creative**: If the input is messy or ambiguous, generate a " ++ dq ++ u "best guess" ++ dq ++ u " creative interpretation. Never return an error. Build *something* fun and functional." ++ nl
  ++ nl
  ++ u "RESPONSE FORMAT:" ++ nl
  ++ u "Return ONLY the raw HTML code. Do not wrap it in markdown code blocks (```html ... ```). Start immediately with <!DOCTYPE html>.".

(** System instruction of [refineApp]. *)
Definition REFINE_SYSTEM_INSTRUCTION : jsstring :=
  u "You are an expert Frontend Developer." ++ nl
  ++ u "You will be given the full source code of a single-page HTML application and a user instruction to modify it." ++ nl
  ++ nl
  ++ u "YOUR TASK:" ++ nl
  ++ u "1. Apply the user's requested changes to the code." ++ nl
  ++ u "2. Fix any obvious bugs you see while you are there." ++ nl
  ++ u "3. Ensure the code remains self-contained (HTML+CSS+JS in one file)." ++ nl
  ++ u "4. Do NOT output explanations. Output ONLY the fully updated raw HTML code." ++ nl
  ++ u "5. Start immediately with <!DOCTYPE html>.".

(** System instruction of [analyzeCode]. *)
Definition ANALYSIS_SYSTEM_INSTRUCTION : jsstring :=
  u "You are a Senior Staff Software Engineer conducting a code review." ++ nl
  ++ u "Analyze the provided HTML/CSS/JS code." ++ nl
  ++ u "Focus on:" ++ nl
  ++ u "1. Code Quality & Cleanliness" ++ nl
  ++ u "2. Performance & Efficiency" ++ nl
  ++ u "3. Modern Best Practices (ES6+, Semantic HTML)" ++ nl
  ++ u "4. Potential bugs or edge cases" ++ nl
  ++ u "5. Accessibility" ++ nl
  ++ nl
  ++ u "Format your response as a concise Markdown report. Keep it constructive and helpful.".


(** A part of the request contents: [{ text }] or
    [{ inlineData: { data, mimeType } }]. *)
Inductive Part : Type :=
| Text (text : jsstring)
| InlineData (data mimeType : jsstring).

(** The [config] of a request.  [temperature] is absent in [analyzeCode]. *)
Record Config : Type := {
  systemInstruction : jsstring;
  thinkingBudget : Z;
  temperature : option Q
}.

(** The argument of [ai.models.generateContent]. *)
Record Request : Type := {
  model : jsstring;
  parts : list Part;
  config : Config
}.

(** A value thrown by the remote call. *)
Inductive JsError : Type := Error (message : jsstring).

(** How the promise of [generateContent] settles: it resolves with a
    response whose [text] is a string or [undefined], or it rejects. *)
Inductive Reply : Type :=
| Resolved (text : option jsstring)
| Rejected (error : JsError).

(** Modelled from the spec: the type [Creation], imported from
    [./CreationHistory], which is not among the sources.  The spec gives it
    a [name], an [html] and an optional [originalImage]; the preview reads
    just these three properties. *)
Record Creation : Type := {
  name : jsstring;
  html : jsstring;
  originalImage : option jsstring
}.

(** The world an asynchronous function runs in: the remote model (its
    answer may depend on every request sent so far, the last one being the
    current one), the requests sent, what was written with
    [console.error], and the Creation the caller of the service holds. *)
Record World : Type := {
  remote : list Request -> Reply;
  calls : list Request;
  console : list (jsstring * JsError);
  stored : option Creation
}.

(** A world that has sent nothing yet, whose model settles every call
    with [reply], and whose caller holds [held]. *)
Definition answering (reply : Reply) (held : option Creation) : World :=
  {| remote := fun _ => reply; calls := []; console := []; stored := held |}.

(** How an asynchronous function ends: its promise resolves or rejects. *)
Inductive Outcome (A : Type) : Type :=
| Returned (a : A)
| Thrown (e : JsError).
Arguments Returned {A} a.
Arguments Thrown {A} e.

Definition M (A : Type) : Type := World -> Outcome A * World.

Definition ret {A} (a : A) : M A := fun w => (Returned a, w).

Definition throw {A} (e : JsError) : M A := fun w => (Thrown e, w).

Definition bind {A B} (m : M A) (k : A -> M B) : M B :=
  fun w =>
    match m w with
    | (Returned a, w') => k a w'
    | (Thrown e, w') => (Thrown e, w')
    end.

(** [try { body } catch (error) { handler }] *)
Definition try_catch {A} (body : M A) (handler : JsError -> M A) : M A :=
  fun w =>
    match body w with
    | (Returned a, w') => (Returned a, w')
    | (Thrown e, w') => handler e w'
    end.

Notation "x <- m ;; k" := (bind m (fun x => k))
  (at level 61, m at next level, right associativity).
Notation "m ;;; k" := (bind m (fun _ => k))
  (at level 61, right associativity).

(** [await ai.models.generateContent(request)]; the value is
    [response.text]. *)
Definition generateContent (request : Request) : M (option jsstring) :=
  fun w =>
    let sent := calls w ++ [request] in
    let w' := {| remote := remote w; calls := sent;
                 console := console w; stored := stored w |} in
    match remote w sent with
    | Resolved text => (Returned text, w')
    | Rejected error => (Thrown error, w')
    end.

Definition console_error (label : jsstring) (error : JsError) : M unit :=
  fun w =>
    (Returned tt,
     {| remote := remote w; calls := calls w;
        console := console w ++ [(label, error)]; stored := stored w |}).

Definition defaultFilePrompt : jsstring :=
  u "Analyze this image/document. Detect what functionality is implied. If it is a real-world object (like a desk), gamify it (e.g., a cleanup game). Build a fully interactive web app. IMPORTANT: Do NOT use external image URLs. Recreate the visuals using CSS, SVGs, or Emojis.".

Definition demoPrompt : jsstring :=
  u "Create a demo app that shows off your capabilities.".

Definition failedPlaceholder : jsstring :=
  u "<!-- Failed to generate content -->".

(** The text part [bringToLife] builds before the call. *)
Definition textPart (prompt : jsstring) (fileBase64 : option jsstring)
  : jsstring :=
  if truthy_opt fileBase64 then
    if truthy prompt && truthy (trim prompt)
    then defaultFilePrompt ++ nl ++ nl ++ u "USER REQUEST / CONTEXT: " ++ prompt
    else defaultFilePrompt
  else or_else (Some prompt) demoPrompt.

(** The [parts] array [bringToLife] sends. *)
Definition generateParts (prompt : jsstring)
    (fileBase64 mimeType : option jsstring) : list Part :=
  [Text (textPart prompt fileBase64)]
  ++ match fileBase64, mimeType with
     | Some data, Some mime =>
         if truthy data && truthy mime then [InlineData data mime] else []
     | _, _ => []
     end.

Definition generateRequest (prompt : jsstring)
    (fileBase64 mimeType : option jsstring) : Request :=
  {| model := GEMINI_MODEL;
     parts := generateParts prompt fileBase64 mimeType;
     config := {| systemInstruction := SYSTEM_INSTRUCTION;
                  thinkingBudget := 32768;
                  temperature := Some (5 # 10)%Q |} |}.

Definition bringToLife (prompt : jsstring)
    (fileBase64 mimeType : option jsstring) : M jsstring :=
  try_catch
    (response <- generateContent (generateRequest prompt fileBase64 mimeType) ;;
     let text := or_else response failedPlaceholder in
     let text := cleanup text in
     ret text)
    (fun error =>
       console_error (u "Gemini Generation Error:") error ;;;
       throw error).

Definition refineRequest (currentHtml instruction : jsstring) : Request :=
  {| model := GEMINI_MODEL;
     parts :=
       [ Text (u "Here is the current existing code:");
         Text currentHtml;
         Text (nl ++ nl ++ u "USER INSTRUCTION: " ++ instruction
               ++ nl ++ nl ++ u "Return the full updated HTML file.") ];
     config := {| systemInstruction := REFINE_SYSTEM_INSTRUCTION;
                  thinkingBudget := 8192;
                  temperature := Some (3 # 10)%Q |} |}.

Definition refineApp (currentHtml instruction : jsstring) : M jsstring :=
  try_catch
    (response <- generateContent (refineRequest currentHtml instruction) ;;
     let text := or_else response currentHtml in
     let text := cleanup text in
     ret text)
    (fun error =>
       console_error (u "Refinement Error:") error ;;;
       throw error).

Definition analyzeRequest (code : jsstring) : Request :=
  {| model := GEMINI_MODEL;
     parts :=
       [ Text (u "Please analyze this code and suggest improvements:");
         Text code ];
     config := {| systemInstruction := ANALYSIS_SYSTEM_INSTRUCTION;
                  thinkingBudget := 32768;
                  temperature := None |} |}.

Definition noAnalysis : jsstring := u "No analysis generated.".
Definition analysisFailed : jsstring :=
  u "Failed to analyze code. Please try again.".

Definition analyzeCode (code : jsstring) : M jsstring :=
  try_catch
    (response <- generateContent (analyzeRequest code) ;;
     ret (or_else response noAnalysis))
    (fun error =>
       console_error (u "Analysis Error:") error ;;;
       ret analysisFailed).

End Gemini.
Import Gemini.

(** ** JSON.stringify, for objects whose properties are strings *)

Module JSON.

Definition hex_digit (d : N) : N :=
  if N.ltb d 10 then (48 + d)%N else (87 + d)%N.

(** [UnicodeEscape]: a backslash, [u] and four lowercase hex digits. *)
Definition unicodeEscape (c : N) : jsstring :=
  u "\u" ++ [ hex_digit ((c / 4096) mod 16); hex_digit ((c / 256) mod 16);
              hex_digit ((c / 16) mod 16); hex_digit (c mod 16) ]%N.

Definition is_lead (c : N) : bool := N.leb 55296 c && N.leb c 56319.
Definition is_trail (c : N) : bool := N.leb 56320 c && N.leb c 57343.

(** One code unit that is not the lead of a surrogate pair. *)
Definition quote_unit (c : N) : jsstring :=
  if N.eqb c 8 then u "\b"
  else if N.eqb c 9 then u "\t"
  else if N.eqb c 10 then u "\n"
  else if N.eqb c 12 then u "\f"
  else if N.eqb c 13 then u "\r"
  else if N.eqb c 34 then u "\" ++ dq
  else if N.eqb c 92 then u "\\"
  else if N.ltb c 32 || is_trail c then unicodeEscape c
  else [c].

(** The body of [QuoteJSONString]: a surrogate pair is kept, a lone
    surrogate is escaped. *)
Fixpoint quote_body (s : jsstring) : jsstring :=
  match s with
  | [] => []
  | c :: s' =>
      if is_lead c then
        match s' with
        | d :: s'' =>
            if is_trail d then c :: d :: quote_body s''
            else unicodeEscape c ++ quote_body s'
        | [] => unicodeEscape c
        end
      else quote_unit c ++ quote_body s'
  end.

Definition QuoteJSONString (s : jsstring) : jsstring :=
  dq ++ quote_body s ++ dq.

Inductive JsValue : Type :=
| VUndefined
| VString (s : jsstring).

(** An object, as its own enumerable properties in creation order. *)
Definition JsObject : Type := list (jsstring * JsValue).

(** [SerializeJSONProperty]: [undefined] has no serialization. *)
Definition SerializeJSONProperty (v : JsValue) : option jsstring :=
  match v with
  | VUndefined => None
  | VString s => Some (QuoteJSONString s)
  end.

(** The members of [SerializeJSONObject] when the gap is not empty. *)
Fixpoint members (o : JsObject) : list jsstring :=
  match o with
  | [] => []
  | (k, v) :: o' =>
      match SerializeJSONProperty v with
      | Some strP => (QuoteJSONString k ++ u ": " ++ strP) :: members o'
      | None => members o'
      end
  end.

Fixpoint join (sep : jsstring) (l : list jsstring) : jsstring :=
  match l with
  | [] => []
  | [x] => x
  | x :: l' => x ++ sep ++ join sep l'
  end.

(** [JSON.stringify(o, null, 2)] at the top level: the indent is the gap,
    two spaces, and the step back is empty. *)
Definition stringify2 (o : JsObject) : jsstring :=
  match members o with
  | [] => u "{}"
  | partial =>
      u "{" ++ nl ++ u "  " ++ join (u "," ++ nl ++ u "  ") partial
      ++ nl ++ u "}"
  end.

(** The keys that appear in the serialization. *)
Fixpoint keys (o : JsObject) : list jsstring :=
  match o with
  | [] => []
  | (k, v) :: o' =>
      match SerializeJSONProperty v with
      | Some _ => k :: keys o'
      | None => keys o'
      end
  end.

End JSON.

(** ** components/LivePreview.tsx *)

Module Preview.

(** The state hooks of [LivePreview]. *)
Record PreviewState : Type := {
  loadingStep : nat;
  showSplitView : bool;
  isAnalyzing : bool;
  analysisResult : option jsstring;
  showAnalysis : bool;
  refinementPrompt : jsstring;
  isRefining : bool
}.

(** The initial values given to [useState]. *)
Definition initialState : PreviewState :=
  {| loadingStep := 0; showSplitView := false; isAnalyzing := false;
     analysisResult := None; showAnalysis := false;
     refinementPrompt := []; isRefining := false |}.

(** [creation?.originalImage] as a condition. *)
Definition hasOriginalImage (creation : option Creation) : bool :=
  match creation with
  | Some c => truthy_opt (originalImage c)
  | None => false
  end.

(** The effect with dependency [[creation]]: "Reset when creation changes". *)
Definition creationEffect (creation : option Creation) (st : PreviewState)
  : PreviewState :=
  {| loadingStep := loadingStep st;
     showSplitView := if hasOriginalImage creation then true else false;
     isAnalyzing := false;
     analysisResult := None;
     showAnalysis := false;
     refinementPrompt := [];
     isRefining := false |}.

(** Modelled from the spec: the properties of a Creation object, in the
    order the spec lists them; the place that builds the object is not
    among the sources.  An absent [originalImage] is [undefined]. *)
Definition creationObject (c : Creation) : JSON.JsObject :=
  [ (u "name", JSON.VString (name c));
    (u "html", JSON.VString (html c));
    (u "originalImage",
     match originalImage c with
     | Some s => JSON.VString s
     | None => JSON.VUndefined
     end) ].

(** What [handleExport] hands to the browser: the blob behind the link,
    its type, and the [download] attribute of the link that is clicked. *)
Record Download : Type := {
  content : jsstring;
  blobType : jsstring;
  download : jsstring
}.

Section Exporting.

(** [String.prototype.toLowerCase].  Its Unicode case mapping is left
    open; what is used is its action on strings of ASCII code units. *)
Variable toLowerCase : jsstring -> jsstring.

Definition exportFileName (c : Creation) : jsstring :=
  toLowerCase (replace_non_alnum (name c)) ++ u "_artifact.json".

Definition handleExport (creation : option Creation) : option Download :=
  match creation with
  | None => None
  | Some c =>
      let dataStr := JSON.stringify2 (creationObject c) in
      Some {| content := dataStr;
              blobType := u "application/json";
              download := exportFileName c |}
  end.

End Exporting.

Definition setShowAnalysis (b : bool) (st : PreviewState) : PreviewState :=
  {| loadingStep := loadingStep st; showSplitView := showSplitView st;
     isAnalyzing := isAnalyzing st; analysisResult := analysisResult st;
     showAnalysis := b; refinementPrompt := refinementPrompt st;
     isRefining := isRefining st |}.

Definition setIsAnalyzing (b : bool) (st : PreviewState) : PreviewState :=
  {| loadingStep := loadingStep st; showSplitView := showSplitView st;
     isAnalyzing := b; analysisResult := analysisResult st;
     showAnalysis := showAnalysis st; refinementPrompt := refinementPrompt st;
     isRefining := isRefining st |}.

Definition setAnalysisResult (r : option jsstring) (st : PreviewState)
  : PreviewState :=
  {| loadingStep := loadingStep st; showSplitView := showSplitView st;
     isAnalyzing := isAnalyzing st; analysisResult := r;
     showAnalysis := showAnalysis st; refinementPrompt := refinementPrompt st;
     isRefining := isRefining st |}.

Definition retrieveFailed : jsstring :=
  u "Failed to retrieve analysis. Please try again.".

(** [handleToggleAnalysis] up to its [await]: the state after the
    synchronous part, and the code passed to [analyzeCode] when the call
    is made.  The handler reads the state of the render it belongs to. *)
Definition handleToggleAnalysis_begin (creation : option Creation)
    (st : PreviewState) : PreviewState * option jsstring :=
  match creation with
  | None => (st, None)
  | Some c =>
      if showAnalysis st then (setShowAnalysis false st, None)
      else
        let st := setShowAnalysis true st in
        if negb (truthy_opt (analysisResult st)) && negb (isAnalyzing st)
        then (setIsAnalyzing true st, Some (html c))
        else (st, None)
  end.

(** [handleToggleAnalysis] from its [await] on: the [try] sets the result,
    the [catch] sets a message, the [finally] clears [isAnalyzing].  The
    setters act on the state the component has by then. *)
Definition handleToggleAnalysis_resume (result : Outcome jsstring)
    (st : PreviewState) : PreviewState :=
  setIsAnalyzing false
    (match result with
     | Returned r => setAnalysisResult (Some r) st
     | Thrown _ => setAnalysisResult (Some retrieveFailed) st
     end).

(** [handleToggleAnalysis] when nothing else happens while it awaits:
    the state it leaves and the world after the call, if one is made. *)
Definition handleToggleAnalysis (creation : option Creation)
    (st : PreviewState) (w : World) : PreviewState * World :=
  match handleToggleAnalysis_begin creation st with
  | (st, Some code) =>
      let (r, w) := analyzeCode code w in
      (handleToggleAnalysis_resume r st, w)
  | (st, None) => (st, w)
  end.

(** The mounted component: its [creation] prop, its state, the calls of
    [analyzeCode] that are awaited (oldest first, with how each settles),
    and the world. *)
Record Component : Type := {
  creation : option Creation;
  state : PreviewState;
  awaiting : list (Outcome jsstring);
  world : World
}.

Inductive Event : Type :=
| ClickAnalysis                                 (* the handler is invoked *)
| AnalysisSettles                               (* an awaited call settles *)
| CreationChanges (c : option Creation).        (* the prop is replaced *)

Definition step (e : Event) (p : Component) : Component :=
  match e with
  | ClickAnalysis =>
      match handleToggleAnalysis_begin (creation p) (state p) with
      | (st, Some code) =>
          let (r, w) := analyzeCode code (world p) in
          {| creation := creation p; state := st;
             awaiting := awaiting p ++ [r]; world := w |}
      | (st, None) =>
          {| creation := creation p; state := st;
             awaiting := awaiting p; world := world p |}
      end
  | AnalysisSettles =>
      match awaiting p with
      | [] => p
      | r :: rest =>
          {| creation := creation p;
             state := handleToggleAnalysis_resume r (state p);
             awaiting := rest; world := world p |}
      end
  | CreationChanges c =>
      {| creation := c; state := creationEffect c (state p);
         awaiting := awaiting p; world := world p |}
  end.

Definition run (es : list Event) (p : Component) : Component :=
  fold_left (fun p e => step e p) es p.

(** The component right after it is mounted with a Creation: the effects
    have run once on the initial state. *)
Definition mount (c : Creation) (w : World) : Component :=
  {| creation := Some c;
     state := creationEffect (Some c) initialState;
     awaiting := []; world := w |}.

(** An event that leaves the [creation] prop as it is. *)
Definition sameCreation (e : Event) : bool :=
  match e with CreationChanges _ => false | _ => true end.

Definition isClick (e : Event) : bool :=
  match e with ClickAnalysis => true | _ => false end.

(** The report that the handler stores when the call made for [c] in the
    world [w] settles. *)
Definition report (c : Creation) (w : World) : jsstring :=
  match fst (analyzeCode (html c) w) with
  | Returned r => r
  | Thrown _ => retrieveFailed
  end.

(** The three phases of a component mounted with [c] in the world [w], as
    long as the Creation stays: no analysis asked yet; the call made and
    awaited; the report stored. *)
Definition fresh (c : Creation) (w : World) (p : Component) : Prop :=
  creation p = Some c /\ world p = w /\ awaiting p = []
  /\ analysisResult (state p) = None /\ isAnalyzing (state p) = false
  /\ showAnalysis (state p) = false.

Definition inFlight (c : Creation) (w : World) (p : Component) : Prop :=
  creation p = Some c /\ world p = snd (analyzeCode (html c) w)
  /\ awaiting p = [fst (analyzeCode (html c) w)]
  /\ analysisResult (state p) = None /\ isAnalyzing (state p) = true.

Definition settled (c : Creation) (w : World) (p : Component) : Prop :=
  creation p = Some c /\ world p = snd (analyzeCode (html c) w)
  /\ awaiting p = []
  /\ analysisResult (state p) = Some (report c w)
  /\ isAnalyzing (state p) = false.

End Preview.

(** ** components/LivePreview.tsx: the loading animation *)

Module Loading.

(** The updater the interval passes to [setLoadingStep]:
    [prev => (prev < 3 ? prev + 1 : prev)]. *)
Definition nextLoadingStep (prev : nat) : nat :=
  if Nat.ltb prev 3 then prev + 1 else prev.

(** [loadingStep] with the interval of the effect on [[isLoading]], which
    exists while [isLoading] holds. *)
Record Loader : Type := {
  step : nat;
  interval : bool
}.

(** [useState(0)], before any effect has run. *)
Definition initialLoader : Loader := {| step := 0; interval := false |}.

Inductive LoaderEvent : Type :=
| LoadingIs (isLoading : bool)   (* the effect runs for this [isLoading] *)
| IntervalFires.                 (* 2000 ms have passed *)

(** The effect clears the interval of the run before it, sets the step to
    0 in both branches, and starts an interval when loading. *)
Definition loaderStep (e : LoaderEvent) (l : Loader) : Loader :=
  match e with
  | LoadingIs isLoading => {| step := 0; interval := isLoading |}
  | IntervalFires =>
      if interval l
      then {| step := nextLoadingStep (step l); interval := true |}
      else l
  end.

Definition runLoader (es : list LoaderEvent) (l : Loader) : Loader :=
  fold_left (fun l e => loaderStep e l) es l.

(** What a [LoadingStep] draws in front of its text:
    [completed ? check : active ? pulse : dot]. *)
Inductive Mark : Type := Check | Pulse | Dot.

Definition LoadingStep (active completed : bool) : Mark :=
  if completed then Check else if active then Pulse else Dot.

(** The four steps of the loading view, as drawn for [loadingStep]:
    step [i] has [active = (loadingStep === i)] and
    [completed = (loadingStep > i)]. *)
Definition terminalSteps (loadingStep : nat) : list (jsstring * Mark) :=
  [ (u "Analyzing visual inputs",
     LoadingStep (Nat.eqb loadingStep 0) (Nat.ltb 0 loadingStep));
    (u "Identifying UI patterns",
     LoadingStep (Nat.eqb loadingStep 1) (Nat.ltb 1 loadingStep));
    (u "Generating functional logic",
     LoadingStep (Nat.eqb loadingStep 2) (Nat.ltb 2 loadingStep));
    (u "Compiling preview",
     LoadingStep (Nat.eqb loadingStep 3) (Nat.ltb 3 loadingStep)) ].

End Loading.

(** ** components/LivePreview.tsx: the refinement bar *)

Module Refine.

Import Preview.

Definition setRefinementPrompt (s : jsstring) (st : PreviewState)
  : PreviewState :=
  {| loadingStep := loadingStep st; showSplitView := showSplitView st;
     isAnalyzing := isAnalyzing st; analysisResult := analysisResult st;
     showAnalysis := showAnalysis st; refinementPrompt := s;
     isRefining := isRefining st |}.

Definition setIsRefining (b : bool) (st : PreviewState) : PreviewState :=
  {| loadingStep := loadingStep st; showSplitView := showSplitView st;
     isAnalyzing := isAnalyzing st; analysisResult := analysisResult st;
     showAnalysis := showAnalysis st; refinementPrompt := refinementPrompt st;
     isRefining := b |}.

(** [handleRefinementSubmit] up to its [await]: the state after the
    synchronous part, and the instruction passed to [onRefine] when the
    call is made. *)
Definition handleRefinementSubmit_begin (st : PreviewState)
  : PreviewState * option jsstring :=
  if negb (truthy (trim (refinementPrompt st))) || isRefining st
  then (st, None)
  else (setIsRefining true st, Some (refinementPrompt st)).

(** [handleRefinementSubmit] from its [await] on: the prompt is cleared
    when [onRefine] resolves, the error is written to the console when it
    rejects, and [isRefining] is cleared in the [finally]. *)
Definition handleRefinementSubmit_resume (result : Outcome unit)
    (st : PreviewState) : PreviewState * list JsError :=
  match result with
  | Returned _ => (setIsRefining false (setRefinementPrompt [] st), [])
  | Thrown e => (setIsRefining false st, [e])
  end.

(** The refinement side of the mounted component: its state, the
    instructions whose [onRefine] call is awaited (oldest first), every
    instruction passed to [onRefine] so far, and the console. *)
Record Refiner : Type := {
  rstate : PreviewState;
  pending : list jsstring;
  refined : list jsstring;
  rconsole : list JsError
}.

Inductive RefineEvent : Type :=
| Types (s : jsstring)                   (* [onChange] of the input *)
| Submits                                (* the button, or Enter in the input *)
| RefineSettles (k : nat) (result : Outcome unit)
                                         (* the [k]-th awaited call settles *)
| CreationReplaced (c : option Creation). (* the [creation] prop changes *)

(** The list without its [k]-th element. *)
Fixpoint remove_nth {A} (k : nat) (l : list A) : list A :=
  match l, k with
  | [], _ => []
  | _ :: l', 0 => l'
  | a :: l', S k' => a :: remove_nth k' l'
  end.

(** The input is [disabled={isRefining}], so nothing is typed into it
    while a refinement runs. *)
Definition refineStep (e : RefineEvent) (r : Refiner) : Refiner :=
  match e with
  | Types s =>
      if isRefining (rstate r) then r
      else {| rstate := setRefinementPrompt s (rstate r);
              pending := pending r; refined := refined r;
              rconsole := rconsole r |}
  | Submits =>
      match handleRefinementSubmit_begin (rstate r) with
      | (st, Some instruction) =>
          {| rstate := st; pending := pending r ++ [instruction];
             refined := refined r ++ [instruction];
             rconsole := rconsole r |}
      | (st, None) =>
          {| rstate := st; pending := pending r; refined := refined r;
             rconsole := rconsole r |}
      end
  | RefineSettles k result =>
      match nth_error (pending r) k with
      | None => r
      | Some _ =>
          let (st, logged) := handleRefinementSubmit_resume result (rstate r) in
          {| rstate := st; pending := remove_nth k (pending r);
             refined := refined r; rconsole := rconsole r ++ logged |}
      end
  | CreationReplaced c =>
      {| rstate := creationEffect c (rstate r); pending := pending r;
         refined := refined r; rconsole := rconsole r |}
  end.

Definition runRefiner (es : list RefineEvent) (r : Refiner) : Refiner :=
  fold_left (fun r e => refineStep e r) es r.

(** The refinement side right after the component is mounted. *)
Definition mounted (c : option Creation) : Refiner :=
  {| rstate := creationEffect c initialState; pending := [];
     refined := []; rconsole := [] |}.

Definition keepsCreation (e : RefineEvent) : bool :=
  match e with CreationReplaced _ => false | _ => true end.

(** A text with a character that is not white space. *)
Definition visible (s : jsstring) : bool := negb (forallb is_white s).

(** Either nothing is awaited and [isRefining] is off, or one call is
    awaited, [isRefining] is on and the prompt still holds the
    instruction of that call. *)
Definition idleOrOne (r : Refiner) : Prop :=
  (pending r = [] /\ isRefining (rstate r) = false)
  \/ (pending r = [refinementPrompt (rstate r)]
      /\ isRefining (rstate r) = true).

End Refine.

(** ** components/LivePreview.tsx: PdfRenderer *)

Module PdfRenderer.

(** Where a run of [renderPdf] stands: at one of its three [await]s, or
    over (it returned, or its [catch] ran). *)
Inductive Stage : Type :=
| AwaitDocument     (* [await loadingTask.promise] *)
| AwaitPage         (* [await pdf.getPage(1)] *)
| AwaitRender       (* [await page.render(renderContext).promise] *)
| Over.

(** One run of the effect: its own [isCancelled] and its stage. *)
Record Run : Type := {
  isCancelled : bool;
  stage : Stage
}.

(** The component: its two state hooks, the runs of the effect so far
    (oldest first), and the console. *)
Record Renderer : Type := {
  loading : bool;
  error : option jsstring;
  runs : list Run;
  console : list JsError
}.

(** [useState(true)] and [useState(null)], before the effect has run. *)
Definition initialRenderer : Renderer :=
  {| loading := true; error := None; runs := []; console := [] |}.

(** How an awaited promise settles; when the page arrives, whether
    [canvasRef.current] and its 2D context are there.  A library call
    that throws in the code after an await ends in the same [catch], with
    no state set in between, so it counts as the failure of that await. *)
Inductive Settlement : Type :=
| Fulfilled (canvas context : bool)
| Failed (err : JsError).

Inductive PdfEvent : Type :=
| EffectRuns (pdfjsLib : bool)   (* mount, or a new [dataUrl] *)
| Unmounts
| Settles (k : nat) (s : Settlement).  (* the await of run [k] settles *)

(** The cleanup of the effect: [isCancelled = true] in the run it
    belongs to.  Only the last run can still be uncancelled. *)
Definition cancel (r : Run) : Run :=
  {| isCancelled := true; stage := stage r |}.

Fixpoint update_nth {A} (k : nat) (f : A -> A) (l : list A) : list A :=
  match l, k with
  | [], _ => []
  | a :: l', 0 => f a :: l'
  | a :: l', S k' => a :: update_nth k' f l'
  end.

Definition notInitialized : jsstring := u "PDF library not initialized".
Definition couldNotRender : jsstring := u "Could not render PDF preview.".

(** The continuation of one run after its await settles: the new
    [loading], the new [error], the next stage, and what is logged. *)
Definition resume (r : Run) (s : Settlement) (loading : bool)
    (error : option jsstring) : bool * option jsstring * Stage * list JsError :=
  match stage r, s with
  | Over, _ => (loading, error, Over, [])
  | _, Failed err =>
      if isCancelled r then (loading, error, Over, [err])
      else (false, Some couldNotRender, Over, [err])
  | AwaitDocument, Fulfilled _ _ =>
      if isCancelled r then (loading, error, Over, [])
      else (loading, error, AwaitPage, [])
  | AwaitPage, Fulfilled canvas context =>
      if canvas && context then (loading, error, AwaitRender, [])
      else (loading, error, Over, [])
  | AwaitRender, Fulfilled _ _ =>
      if isCancelled r then (loading, error, Over, [])
      else (false, error, Over, [])
  end.

Definition pdfStep (e : PdfEvent) (p : Renderer) : Renderer :=
  match e with
  | EffectRuns pdfjsLib =>
      let old := List.map cancel (runs p) in
      if pdfjsLib
      then {| loading := true; error := error p;
              runs := old ++ [{| isCancelled := false; stage := AwaitDocument |}];
              console := console p |}
      else {| loading := false; error := Some notInitialized;
              runs := old ++ [{| isCancelled := false; stage := Over |}];
              console := console p |}
  | Unmounts =>
      {| loading := loading p; error := error p;
         runs := List.map cancel (runs p); console := console p |}
  | Settles k s =>
      match nth_error (runs p) k with
      | None => p
      | Some r =>
          match resume r s (loading p) (error p) with
          | (l, e, st, logged) =>
              {| loading := l; error := e;
                 runs := update_nth k
                           (fun r => {| isCancelled := isCancelled r;
                                        stage := st |}) (runs p);
                 console := console p ++ logged |}
          end
      end
  end.

Definition runPdf (es : list PdfEvent) (p : Renderer) : Renderer :=
  fold_left (fun p e => pdfStep e p) es p.

(** What the component returns: the error panel, or the canvas with the
    spinner over it while loading. *)
Inductive PdfView : Type :=
| ErrorPanel (message : jsstring)
| Canvas (spinner : bool).

(** [if (error) { ... }]: an empty message would not count as an error. *)
Definition render (p : Renderer) : PdfView :=
  match error p with
  | Some m => if truthy m then ErrorPanel m else Canvas (loading p)
  | None => Canvas (loading p)
  end.

Definition isSettlement (e : PdfEvent) : bool :=
  match e with Settles _ _ => true | _ => false end.

(** A run that can no longer set the state: it is cancelled, or over. *)
Definition inert (r : Run) : bool :=
  isCancelled r || match stage r with Over => true | _ => false end.

End PdfRenderer.

(** ** components/InputArea.tsx *)

Module InputArea.

(** What the handlers read of a [File]. *)
Record File : Type := {
  fileName : jsstring;
  fileType : jsstring
}.

(** [file.type.startsWith('image/') || file.type === 'application/pdf'] *)
Definition accepted (file : File) : bool :=
  startsWith (fileType file) (u "image/")
  || JS.eqb (fileType file) (u "application/pdf").

(** What a handler does to the outside: it calls [onGenerate], or it
    shows an alert. *)
Inductive Effect : Type :=
| OnGenerate (prompt : jsstring) (file : option File)
| Alert (message : jsstring).

Record Props : Type := {
  isGenerating : bool;
  disabled : bool
}.

Record State : Type := {
  isDragging : bool;
  prompt : jsstring
}.

Definition setIsDragging (b : bool) (st : State) : State :=
  {| isDragging := b; prompt := prompt st |}.

Definition setPrompt (s : jsstring) (st : State) : State :=
  {| isDragging := isDragging st; prompt := s |}.

Definition uploadAlert : jsstring := u "Please upload an image or PDF.".

Definition handleFile (st : State) (file : File) : list Effect :=
  if accepted file then [OnGenerate (prompt st) (Some file)]
  else [Alert uploadAlert].

(** [e.target.files && e.target.files[0]]: the first file, if any. *)
Definition handleFileChange (st : State) (files : list File) : list Effect :=
  match files with
  | file :: _ => handleFile st file
  | [] => []
  end.

Definition handleDrop (props : Props) (st : State) (files : list File)
  : State * list Effect :=
  let st := setIsDragging false st in
  if disabled props || isGenerating props then (st, [])
  else match files with
       | file :: _ => (st, handleFile st file)
       | [] => (st, [])
       end.

Definition handleDragOver (props : Props) (st : State) : State :=
  if negb (disabled props) && negb (isGenerating props)
  then setIsDragging true st else st.

Definition handleDragLeave (st : State) : State := setIsDragging false st.

Definition handleTextSubmit (props : Props) (st : State) : list Effect :=
  if truthy (trim (prompt st)) && negb (disabled props)
     && negb (isGenerating props)
  then [OnGenerate (prompt st) None] else [].

(** [e.key === 'Enter' && e.metaKey] *)
Definition handleKeyDown (props : Props) (st : State) (key : jsstring)
    (metaKey : bool) : list Effect :=
  if JS.eqb key (u "Enter") && metaKey then handleTextSubmit props st else [].

(** The component with its props, and every effect so far together with
    the props under which it happened. *)
Record Area : Type := {
  props : Props;
  state : State;
  effects : list (Props * Effect)
}.

Inductive AreaEvent : Type :=
| Rerendered (props : Props)             (* the parent passes new props *)
| Changed (s : jsstring)                 (* [onChange] of the textarea *)
| FileChosen (files : list File)         (* [onChange] of the file input *)
| Dropped (files : list File)
| DraggedOver
| DragLeft
| SendClicked
| KeyPressed (key : jsstring) (metaKey : bool).

Definition emit (a : Area) (st : State) (effs : list Effect) : Area :=
  {| props := props a; state := st;
     effects := effects a ++ List.map (fun e => (props a, e)) effs |}.

Definition areaStep (e : AreaEvent) (a : Area) : Area :=
  match e with
  | Rerendered p => {| props := p; state := state a; effects := effects a |}
  | Changed s => emit a (setPrompt s (state a)) []
  | FileChosen files => emit a (state a) (handleFileChange (state a) files)
  | Dropped files =>
      let (st, effs) := handleDrop (props a) (state a) files in emit a st effs
  | DraggedOver => emit a (handleDragOver (props a) (state a)) []
  | DragLeft => emit a (handleDragLeave (state a)) []
  | SendClicked => emit a (state a) (handleTextSubmit (props a) (state a))
  | KeyPressed key metaKey =>
      emit a (state a) (handleKeyDown (props a) (state a) key metaKey)
  end.

Definition runArea (es : list AreaEvent) (a : Area) : Area :=
  fold_left (fun a e => areaStep e a) es a.

(** [useState(false)] and [useState("")] under the first props. *)
Definition initialArea (p : Props) : Area :=
  {| props := p; state := {| isDragging := false; prompt := [] |};
     effects := [] |}.

(** The effect is one the component may have, given the props it
    happened under. *)
Definition allowed (pe : Props * Effect) : bool :=
  match snd pe with
  | OnGenerate _ (Some file) => accepted file
  | OnGenerate p None =>
      negb (forallb is_white p) && negb (disabled (fst pe))
      && negb (isGenerating (fst pe))
  | Alert m => JS.eqb m uploadAlert
  end.

(** [const words] of [CyclingText]. *)
Definition words : list jsstring :=
  [ u "a napkin sketch"; u "a PDF specification"; u "a chaotic whiteboard";
    u "a game level design"; u "a research paper"; u "a sci-fi interface";
    u "a diagram of a machine"; u "an ancient scroll" ].

Record Cycling : Type := {
  index : nat;
  fade : bool
}.

(** [useState(0)] and [useState(true)]. *)
Definition initialCycling : Cycling := {| index := 0; fade := true |}.

Inductive CyclingEvent : Type :=
| IntervalFires    (* every 3000 ms: fade out *)
| TimeoutFires.    (* 500 ms later: next word, fade in *)

Definition cyclingStep (e : CyclingEvent) (c : Cycling) : Cycling :=
  match e with
  | IntervalFires => {| index := index c; fade := false |}
  | TimeoutFires =>
      {| index := (index c + 1) mod List.length words; fade := true |}
  end.

Definition runCycling (es : list CyclingEvent) (c : Cycling) : Cycling :=
  fold_left (fun c e => cyclingStep e c) es c.

Definition isTimeout (e : CyclingEvent) : bool :=
  match e with TimeoutFires => true | IntervalFires => false end.

End InputArea.

(** ** components/ErrorBoundary.tsx *)

Module ErrorBoundary.

Record State : Type := {
  hasError : bool;
  error : option JsError
}.

(** [public state: State = { hasError: false }] *)
Definition initialState : State := {| hasError := false; error := None |}.

Definition getDerivedStateFromError (e : JsError) : State :=
  {| hasError := true; error := Some e |}.

Inductive BoundaryEvent : Type :=
| ChildThrows (e : JsError)
| TryAgain.

Definition message (e : JsError) : jsstring :=
  match e with Error m => m end.

(** The state returned by [getDerivedStateFromError] and the object given
    to [setState] are merged into the state: [{ hasError: false }] leaves
    [error] as it is. *)
Definition boundaryStep (e : BoundaryEvent) (st : State) : State :=
  match e with
  | ChildThrows err =>
      {| hasError := hasError (getDerivedStateFromError err);
         error := error (getDerivedStateFromError err) |}
  | TryAgain => {| hasError := false; error := error st |}
  end.

Definition runBoundary (es : list BoundaryEvent) (st : State) : State :=
  fold_left (fun st e => boundaryStep e st) es st.

Definition unexpected : jsstring :=
  u "An unexpected error occurred in this interface element.".

Inductive View : Type :=
| Fallback (text : jsstring)
| Children.

(** [render]: the fallback shows
    [this.state.error?.message || "An unexpected error ..."]. *)
Definition render (st : State) : View :=
  if hasError st
  then Fallback (or_else (option_map message (error st)) unexpected)
  else Children.

End ErrorBoundary.

(** ** What is seen and logged *)

Module Views.

Import Preview.

(** The console after an operation whose remote call was [request]:
    untouched when the call resolves, one more entry, the caught error
    under [label], when it rejects. *)
Definition logged (label : jsstring) (w : World) (request : Request)
  : list (jsstring * JsError) :=
  match remote w (calls w ++ [request]) with
  | Resolved _ => Gemini.console w
  | Rejected e => Gemini.console w ++ [(label, e)]
  end.

(** The main content area of [LivePreview]: the loading view; the
    analysis panel with its spinner or with [analysisResult]; the preview
    with the input panel beside it or not; or nothing. *)
Inductive Content : Type :=
| LoadingView
| AnalysisSpinner
| AnalysisText (text : option jsstring)
| PreviewPane (inputPanel : bool)
| Blank.

(** [isLoading ? ... : showAnalysis ? ... : creation?.html ? ... : null] *)
Definition mainContent (isLoading : bool) (creation : option Creation)
    (st : PreviewState) : Content :=
  if isLoading then LoadingView
  else if showAnalysis st then
    if isAnalyzing st then AnalysisSpinner
    else AnalysisText (analysisResult st)
  else match creation with
       | Some c =>
           if truthy (html c)
           then PreviewPane (showSplitView st && truthy_opt (originalImage c))
           else Blank
       | None => Blank
       end.

(** The number of line feeds in a text. *)
Definition lineFeeds (s : jsstring) : nat :=
  List.length (filter (N.eqb 10) s).

(** A lower-case letter, a digit or an underscore. *)
Definition isNameUnit (c : N) : bool :=
  (N.leb 48 c && N.leb c 57) || (N.leb 97 c && N.leb c 122) || N.eqb c 95.

End Views.

(** * Properties *)

(** ** Strings *)

Section StringFacts.

Lemma eqb_eq (s t : jsstring) : JS.eqb s t = true <-> s = t.
Proof.
  revert t; induction s as [|a s IH]; intros [|b t]; simpl;
    try (split; [discriminate | congruence]); try tauto.
  rewrite andb_true_iff, N.eqb_eq, IH. split.
  - intros [-> ->]; reflexivity.
  - intros E; injection E; auto.
Qed.

Lemma eqb_refl (s : jsstring) : JS.eqb s s = true.
Proof. apply eqb_eq; reflexivity. Qed.

Lemma eqb_longer (c : N) (t lit : jsstring) :
  JS.eqb (c :: t ++ lit) lit = false.
Proof.
  destruct (JS.eqb (c :: t ++ lit) lit) eqn:E; [|reflexivity].
  apply eqb_eq in E. apply (f_equal (@List.length N)) in E.
  simpl in E. rewrite length_app in E. lia.
Qed.

Lemma strip_prefix_app (p s : jsstring) : strip_prefix p (p ++ s) = Some s.
Proof. induction p as [|a p IH]; simpl; [|rewrite N.eqb_refl]; auto. Qed.

Lemma strip_prefix_spec (p s r : jsstring) :
  strip_prefix p s = Some r <-> s = p ++ r.
Proof.
  split; [|intros ->; apply strip_prefix_app].
  revert s; induction p as [|a p IH]; intros [|b s]; simpl;
    try discriminate; try (intros E; congruence).
  destruct (N.eqb_spec a b) as [->|]; [|discriminate].
  intros E; rewrite (IH _ E); reflexivity.
Qed.

Lemma skip_white_all (ws s : jsstring) :
  forallb is_white ws = true -> skip_white (ws ++ s) = skip_white s.
Proof.
  induction ws as [|c ws IH]; simpl; [reflexivity|].
  rewrite andb_true_iff; intros [-> H]; auto.
Qed.

Lemma replace_head_ws_app (lit s : jsstring) :
  replace_head_ws lit (lit ++ s) = skip_white s.
Proof. unfold replace_head_ws; rewrite strip_prefix_app; reflexivity. Qed.

Lemma replace_head_ws_none (lit s : jsstring) :
  startsWith s lit = false -> replace_head_ws lit s = s.
Proof.
  unfold startsWith, replace_head_ws.
  destruct (strip_prefix lit s); [discriminate | reflexivity].
Qed.

Lemma startsWith_longer (p q s : jsstring) :
  startsWith s p = false -> startsWith s (p ++ q) = false.
Proof.
  unfold startsWith. destruct (strip_prefix (p ++ q) s) eqn:E; [|reflexivity].
  apply strip_prefix_spec in E; subst s.
  rewrite <- app_assoc, strip_prefix_app; discriminate.
Qed.

Lemma replace_tail_eq (lit s : jsstring) :
  replace_tail lit s =
  if JS.eqb s lit then []
  else match s with [] => [] | c :: s' => c :: replace_tail lit s' end.
Proof. destruct s; reflexivity. Qed.

Lemma replace_tail_app (lit t : jsstring) : replace_tail lit (t ++ lit) = t.
Proof.
  induction t as [|c t IH]; rewrite replace_tail_eq.
  - simpl app. rewrite eqb_refl; reflexivity.
  - rewrite <- app_comm_cons, eqb_longer, IH; reflexivity.
Qed.

Lemma endsWith_app (t p : jsstring) : endsWith (t ++ p) p = true.
Proof.
  unfold endsWith. rewrite length_app.
  replace (List.length t + List.length p - List.length p)
    with (List.length t + 0) by lia.
  rewrite skipn_app, skipn_all2 by lia.
  replace (List.length t + 0 - List.length t) with 0 by lia.
  apply eqb_refl.
Qed.

Lemma endsWith_cons (c : N) (s p : jsstring) :
  endsWith (c :: s) p = false -> endsWith s p = false.
Proof.
  intros H. destruct (endsWith s p) eqn:E; [|reflexivity].
  unfold endsWith in E. apply eqb_eq in E.
  assert (L : List.length p <= List.length s).
  { rewrite <- E at 1. rewrite length_skipn. lia. }
  rewrite <- H. rewrite <- (firstn_skipn (List.length s - List.length p) s) at 1.
  rewrite E, app_comm_cons. symmetry; apply endsWith_app.
Qed.

Lemma replace_tail_none (lit s : jsstring) :
  endsWith s lit = false -> replace_tail lit s = s.
Proof.
  induction s as [|c s IH]; intros H; rewrite replace_tail_eq.
  - destruct (JS.eqb [] lit); reflexivity.
  - destruct (JS.eqb (c :: s) lit) eqn:E.
    + apply eqb_eq in E. rewrite E in H.
      change lit with ([] ++ lit) in H at 1.
      rewrite endsWith_app in H; discriminate.
    + rewrite IH; [reflexivity | eapply endsWith_cons; eauto].
Qed.

End StringFacts.

(** ** The cleanup of fenced output *)

Section Cleanup.

Lemma fence_cons (a : N) (s r : jsstring) :
  strip_prefix fence (a :: s) = Some r -> a = 96%N /\ strip_prefix (u "``") s = Some r.
Proof.
  change fence with (96%N :: u "``"). cbn [strip_prefix].
  destruct (N.eqb_spec 96 a) as [<-|]; [auto | discriminate].
Qed.

Lemma skip_white_unwhite (t : jsstring) :
  startsWhite t = false -> skip_white (t ++ fence) = t ++ fence.
Proof.
  destruct t as [|c t]; [reflexivity|]. simpl. intros ->; reflexivity.
Qed.

Lemma bare_fence_after (t : jsstring) :
  startsWith t fence = false ->
  replace_tail fence (replace_head_ws fence (t ++ fence)) = t.
Proof.
  intros H. destruct (startsWith (t ++ fence) fence) eqn:E.
  2:{ rewrite replace_head_ws_none, replace_tail_app; auto. }
  unfold startsWith in E, H.
  destruct (strip_prefix fence (t ++ fence)) as [r|] eqn:Er; [clear E|discriminate].
  destruct t as [|a [|b [|c t]]].
  - reflexivity.
  - apply fence_cons in Er as [-> _]. reflexivity.
  - apply fence_cons in Er as [-> Er].
    change (u "``") with (96%N :: u "`") in Er. cbn [app strip_prefix] in Er.
    destruct (N.eqb_spec 96 b) as [<-|]; [reflexivity | discriminate].
  - exfalso. revert H.
    change fence with [96; 96; 96]%N in *. cbn [app strip_prefix] in *.
    destruct (N.eqb 96 a); [|discriminate].
    destruct (N.eqb 96 b); [|discriminate].
    destruct (N.eqb 96 c); discriminate.
Qed.

Lemma cleanup_unfenced (s : jsstring) : fenced s = false -> cleanup s = s.
Proof.
  unfold fenced; rewrite orb_false_iff; intros [Hs He].
  unfold cleanup. rewrite (replace_head_ws_none fence_html).
  - rewrite replace_head_ws_none, replace_tail_none; auto.
  - change fence_html with (fence ++ u "html").
    apply startsWith_longer; exact Hs.
Qed.

Lemma cleanup_keeps_text (s : jsstring) :
  truthy s = true -> startsWith s fence = false -> truthy (cleanup s) = true.
Proof.
  intros Hne Hs. unfold cleanup.
  rewrite (replace_head_ws_none fence_html), (replace_head_ws_none fence); auto.
  2:{ change fence_html with (fence ++ u "html").
      apply startsWith_longer; exact Hs. }
  rewrite replace_tail_eq. destruct (JS.eqb s fence) eqn:E.
  - apply eqb_eq in E; subst s; discriminate Hs.
  - destruct s; [discriminate Hne | reflexivity].
Qed.

(** C3 (as amended).  The opener that is recognised with a tag is the one
    tagged [html]; the white space after it belongs to the opener.  For a
    response made of that opener, any run of white space, an inner text [t]
    and a closing fence, the cleanup returns [t] verbatim, provided [t]
    does not itself begin with white space or with a fence; and a text [s]
    with no leading and no trailing fence is left untouched. *)
Theorem cleanup_html_fence (ws t s : jsstring) :
  forallb is_white ws = true ->
  startsWhite t = false ->
  startsWith t fence = false ->
  fenced s = false ->
  cleanup (fence_html ++ ws ++ t ++ fence) = t /\ cleanup s = s.
Proof.
  intros Hws Hw Hf Hs. split; [|apply cleanup_unfenced; exact Hs].
  unfold cleanup.
  rewrite replace_head_ws_app, skip_white_all, skip_white_unwhite by assumption.
  apply bare_fence_after; exact Hf.
Qed.

Lemma cleanup_html_fence_witness :
  cleanup (fence_html ++ nl ++ u "<p>a  b</p> " ++ fence) = u "<p>a  b</p> "
  /\ cleanup (u "<!DOCTYPE html>") = u "<!DOCTYPE html>".
Proof.
  apply (cleanup_html_fence nl (u "<p>a  b</p> ") (u "<!DOCTYPE html>"));
    reflexivity.
Defined.

(** C3 (as stated) fails: with the tag [js] the tag stays in the text, and
    with the tag [html] the leading white space of the inner text is lost. *)
Lemma cleanup_any_tag_counterexample :
  cleanup (fence ++ u "js" ++ u "x" ++ fence) = u "jsx"
  /\ cleanup (fence ++ u "js" ++ u "x" ++ fence) <> u "x"
  /\ cleanup (fence ++ u "html" ++ u "  x" ++ fence) = u "x"
  /\ cleanup (fence ++ u "html" ++ u "  x" ++ fence) <> u "  x".
Proof. vm_compute. repeat split; discriminate. Qed.

(** C9.  On a text that carries no leading and no trailing fence marker,
    cleaning twice gives what cleaning once gives. *)
Theorem cleanup_idempotent_on_clean (t : jsstring) :
  fenced t = false -> cleanup (cleanup t) = cleanup t.
Proof. intros H. rewrite !(cleanup_unfenced t H). reflexivity. Qed.

Lemma cleanup_idempotent_on_clean_witness :
  cleanup (cleanup (u "<html> </html>")) = cleanup (u "<html> </html>").
Proof. apply cleanup_idempotent_on_clean. reflexivity. Defined.

End Cleanup.

(** ** Texts made of fences only *)

Section FenceOnly.

Lemma skip_white_split (s : jsstring) :
  exists ws, s = ws ++ skip_white s /\ forallb is_white ws = true.
Proof.
  induction s as [|c s (ws & IH & Hws)]; [exists []; auto|].
  simpl. destruct (is_white c) eqn:E.
  - exists (c :: ws). simpl. rewrite E, Hws, <- IH. auto.
  - exists []. auto.
Qed.

Lemma replace_head_ws_split (lit s : jsstring) :
  exists a, s = a ++ replace_head_ws lit s
            /\ (if startsWith s lit
                then exists ws, a = lit ++ ws else a = []).
Proof.
  unfold replace_head_ws, startsWith.
  destruct (strip_prefix lit s) as [rest|] eqn:E.
  - apply strip_prefix_spec in E. subst s.
    destruct (skip_white_split rest) as (ws & Hr & _).
    exists (lit ++ ws). rewrite <- app_assoc, <- Hr. eauto.
  - exists []; auto.
Qed.

Lemma endsWith_true (s p : jsstring) :
  endsWith s p = true -> exists t, s = t ++ p.
Proof.
  unfold endsWith. intros H. apply eqb_eq in H.
  set (n := List.length s - List.length p) in *.
  exists (firstn n s). rewrite <- H. symmetry; apply firstn_skipn.
Qed.

Lemma endsWith_suffix (a s p : jsstring) :
  endsWith (a ++ s) p = false -> endsWith s p = false.
Proof.
  induction a as [|c a IH]; simpl; [auto|].
  intros H. apply IH. eapply endsWith_cons; eauto.
Qed.

Lemma replace_tail_split (lit s : jsstring) :
  exists b, s = replace_tail lit s ++ b
            /\ (if endsWith s lit then b = lit else b = []).
Proof.
  destruct (endsWith s lit) eqn:E.
  - destruct (endsWith_true _ _ E) as (t & ->).
    exists lit. rewrite replace_tail_app. auto.
  - exists []. rewrite replace_tail_none, app_nil_r; auto.
Qed.

Lemma startsWith_app (p r : jsstring) : startsWith (p ++ r) p = true.
Proof. unfold startsWith. rewrite strip_prefix_app. reflexivity. Qed.







End FenceOnly.

(** ** The three operations of the service *)

Section Service.

Lemma bringToLife_run (prompt : jsstring) (fileBase64 mimeType : option jsstring)
    (w : World) :
  let sent := calls w ++ [generateRequest prompt fileBase64 mimeType] in
  bringToLife prompt fileBase64 mimeType w =
  match remote w sent with
  | Resolved text =>
      (Returned (cleanup (or_else text failedPlaceholder)),
       {| remote := remote w; calls := sent; console := console w;
          stored := stored w |})
  | Rejected e =>
      (Thrown e,
       {| remote := remote w; calls := sent;
          console := console w ++ [(u "Gemini Generation Error:", e)];
          stored := stored w |})
  end.
Proof.
  unfold bringToLife, try_catch, bind, generateContent; cbv zeta.
  destruct (remote w _); reflexivity.
Qed.

Lemma refineApp_run (currentHtml instruction : jsstring) (w : World) :
  let sent := calls w ++ [refineRequest currentHtml instruction] in
  refineApp currentHtml instruction w =
  match remote w sent with
  | Resolved text =>
      (Returned (cleanup (or_else text currentHtml)),
       {| remote := remote w; calls := sent; console := console w;
          stored := stored w |})
  | Rejected e =>
      (Thrown e,
       {| remote := remote w; calls := sent;
          console := console w ++ [(u "Refinement Error:", e)];
          stored := stored w |})
  end.
Proof.
  unfold refineApp, try_catch, bind, generateContent; cbv zeta.
  destruct (remote w _); reflexivity.
Qed.

Lemma analyzeCode_run (code : jsstring) (w : World) :
  let sent := calls w ++ [analyzeRequest code] in
  analyzeCode code w =
  match remote w sent with
  | Resolved text =>
      (Returned (or_else text noAnalysis),
       {| remote := remote w; calls := sent; console := console w;
          stored := stored w |})
  | Rejected e =>
      (Returned analysisFailed,
       {| remote := remote w; calls := sent;
          console := console w ++ [(u "Analysis Error:", e)];
          stored := stored w |})
  end.
Proof.
  unfold analyzeCode, try_catch, bind, generateContent; cbv zeta.
  destruct (remote w _); reflexivity.
Qed.

Lemma or_else_truthy (a : option jsstring) (b : jsstring) :
  truthy b = true -> truthy (or_else a b) = true.
Proof.
  intros Hb. destruct a as [s|]; simpl; [|exact Hb].
  destruct (truthy s) eqn:E; [exact E | exact Hb].
Qed.

Lemma or_else_falsy (a : option jsstring) (b : jsstring) :
  truthy_opt a = false -> or_else a b = b.
Proof. destruct a as [s|]; simpl; [intros ->|]; reflexivity. Qed.

Lemma truthy_opt_some (a : option jsstring) :
  truthy_opt a = true ->
  exists s, a = Some s /\ truthy s = true /\ forall b, or_else a b = s.
Proof.
  destruct a as [s|]; simpl; [|discriminate].
  intros H; exists s; rewrite H; auto.
Qed.

(** What [analyzeCode] resolves with: it never rejects, and the string is
    never empty. *)
Lemma analyzeCode_report (code : jsstring) (w : World) :
  exists s, fst (analyzeCode code w) = Returned s /\ truthy s = true.
Proof.
  rewrite analyzeCode_run; cbv zeta. destruct (remote w _).
  - eexists; split; [reflexivity|]. apply or_else_truthy; reflexivity.
  - eexists; split; reflexivity.
Qed.


(** C8.  [analyzeCode] never rejects: whatever the code and however the
    remote call settles, it resolves with a string that is not empty; the
    failure message when the call fails, the fixed "no analysis" string
    when the response text is empty, and the response text otherwise. *)
Theorem analyzeCode_never_raises (code : jsstring) (w : World) :
  exists s,
    fst (analyzeCode code w) = Returned s /\ truthy s = true /\
    match remote w (calls w ++ [analyzeRequest code]) with
    | Rejected _ => s = analysisFailed
    | Resolved text => if truthy_opt text then text = Some s else s = noAnalysis
    end.
Proof.
  rewrite analyzeCode_run; cbv zeta.
  destruct (remote w _) as [text|e].
  - exists (or_else text noAnalysis); split; [reflexivity|].
    split; [apply or_else_truthy; reflexivity|].
    destruct (truthy_opt text) eqn:E.
    + destruct (truthy_opt_some _ E) as (s & -> & _ & Hs). rewrite Hs; reflexivity.
    + apply or_else_falsy; exact E.
  - exists analysisFailed; repeat split.
Qed.







End Service.

(** ** The requests that are sent *)

Section Requests.

Lemma skip_white_head (s r : jsstring) (c : N) :
  skip_white s = c :: r -> is_white c = false.
Proof.
  induction s as [|a s IH]; simpl; [discriminate|].
  destruct (is_white a) eqn:E; [exact IH|].
  intros H; injection H as -> _; exact E.
Qed.

Lemma skip_white_nil (s : jsstring) :
  truthy (skip_white s) = negb (forallb is_white s).
Proof.
  induction s as [|a s IH]; simpl; [reflexivity|].
  destruct (is_white a); [exact IH | reflexivity].
Qed.

Lemma truthy_rev (s : jsstring) : truthy (rev s) = truthy s.
Proof.
  destruct s as [|a s]; [reflexivity|]. simpl.
  destruct (rev s); reflexivity.
Qed.

Lemma forallb_rev (f : N -> bool) (s : jsstring) :
  forallb f (rev s) = forallb f s.
Proof.
  induction s as [|a s IH]; simpl; [reflexivity|].
  rewrite forallb_app, IH; simpl. rewrite andb_true_r. apply andb_comm.
Qed.

(** [s.trim()] is empty exactly when [s] is made of white space only. *)
Lemma trim_blank (s : jsstring) :
  truthy (trim s) = negb (forallb is_white s).
Proof.
  unfold trim. rewrite truthy_rev, skip_white_nil, forallb_rev.
  rewrite <- (skip_white_nil s).
  destruct (skip_white s) as [|c r] eqn:E; [reflexivity|].
  simpl. rewrite (skip_white_head _ _ _ E). reflexivity.
Qed.

Lemma textPart_spec (prompt : jsstring) (fileBase64 : option jsstring) :
  textPart prompt fileBase64 =
  if truthy_opt fileBase64 then
    if forallb is_white prompt then defaultFilePrompt
    else defaultFilePrompt ++ nl ++ nl ++ u "USER REQUEST / CONTEXT: " ++ prompt
  else match prompt with [] => demoPrompt | _ :: _ => prompt end.
Proof.
  unfold textPart. destruct (truthy_opt fileBase64).
  - rewrite trim_blank. destruct prompt as [|c p]; [reflexivity|].
    simpl truthy. simpl andb. destruct (forallb is_white (c :: p)) eqn:E;
      simpl in E; rewrite E; reflexivity.
  - destruct prompt; reflexivity.
Qed.

Lemma bringToLife_calls (prompt : jsstring)
    (fileBase64 mimeType : option jsstring) (w : World) :
  calls (snd (bringToLife prompt fileBase64 mimeType w))
  = calls w ++ [generateRequest prompt fileBase64 mimeType].
Proof.
  rewrite bringToLife_run; cbv zeta. destruct (remote w _); reflexivity.
Qed.

(** C5.  [bringToLife] sends one request whose first part is a text.
    With a file, the text is the default instruction, followed by the
    user's text as context when that text has a character that is not white
    space, hence only when it is not empty.  Without a file, the text is
    the prompt, or the canned demo request when the prompt is empty.  With
    an empty prompt, a file and its media type, the parts are the default
    instruction and the attachment. *)
Theorem bringToLife_instruction (prompt : jsstring)
    (fileBase64 mimeType : option jsstring) (w : World) :
  let req := generateRequest prompt fileBase64 mimeType in
  let context := nl ++ nl ++ u "USER REQUEST / CONTEXT: " ++ prompt in
  calls (snd (bringToLife prompt fileBase64 mimeType w)) = calls w ++ [req]
  /\ hd_error (parts req)
     = Some (Text
         (if truthy_opt fileBase64 then
            if forallb is_white prompt then defaultFilePrompt
            else defaultFilePrompt ++ context
          else match prompt with [] => demoPrompt | _ :: _ => prompt end))
  /\ (forallb is_white prompt = false -> prompt <> [])
  /\ (forall data mime,
        prompt = [] -> fileBase64 = Some data -> mimeType = Some mime ->
        truthy data = true -> truthy mime = true ->
        parts req = [Text defaultFilePrompt; InlineData data mime]).
Proof.
  cbv zeta. split; [apply bringToLife_calls|]. split; [|split].
  - unfold generateRequest, generateParts; simpl.
    rewrite textPart_spec. reflexivity.
  - intros H ->. discriminate H.
  - intros data mime -> -> -> Hd Hm.
    unfold generateRequest, generateParts; simpl parts.
    rewrite textPart_spec, Hd, Hm. simpl. rewrite Hd. reflexivity.
Qed.

Lemma bringToLife_instruction_witness :
  parts (generateRequest [] (Some (u "iVBORw0KGgo=")) (Some (u "image/png")))
  = [Text defaultFilePrompt; InlineData (u "iVBORw0KGgo=") (u "image/png")].
Proof.
  exact (proj2 (proj2 (proj2
    (bringToLife_instruction [] (Some (u "iVBORw0KGgo=")) (Some (u "image/png"))
       (answering (Resolved None) None))))
    (u "iVBORw0KGgo=") (u "image/png") eq_refl eq_refl eq_refl eq_refl eq_refl).
Defined.

(** C10.  The request carries an attachment part only when both the
    base64 payload and the media type are given (and not empty).  When the
    payload is given and the media type is not, the text is still built
    from the default instruction, and it is the only part. *)
Theorem attachment_needs_media_type (prompt : jsstring)
    (fileBase64 mimeType : option jsstring) (w : World) :
  let req := generateRequest prompt fileBase64 mimeType in
  let context := nl ++ nl ++ u "USER REQUEST / CONTEXT: " ++ prompt in
  calls (snd (bringToLife prompt fileBase64 mimeType w)) = calls w ++ [req]
  /\ (forall data mime,
        In (InlineData data mime) (parts req) ->
        fileBase64 = Some data /\ mimeType = Some mime
        /\ truthy data = true /\ truthy mime = true)
  /\ (truthy_opt fileBase64 = true -> truthy_opt mimeType = false ->
      parts req = [Text (if forallb is_white prompt then defaultFilePrompt
                         else defaultFilePrompt ++ context)]).
Proof.
  cbv zeta. split; [apply bringToLife_calls|]. split.
  - intros data mime. unfold generateRequest, generateParts; simpl.
    intros [H|H]; [discriminate H|].
    destruct fileBase64 as [d|]; [|destruct H].
    destruct mimeType as [m|]; [|destruct H].
    destruct (truthy d) eqn:Ed; [|destruct H].
    destruct (truthy m) eqn:Em; [|destruct H].
    destruct H as [H|[]]. injection H as -> ->. auto.
  - intros Hf Hm. unfold generateRequest, generateParts; simpl parts.
    rewrite textPart_spec, Hf.
    destruct fileBase64 as [d|]; [|discriminate Hf].
    destruct mimeType as [m|]; [|reflexivity].
    simpl in Hf, Hm. rewrite Hf, Hm. reflexivity.
Qed.

Lemma attachment_needs_media_type_witness :
  parts (generateRequest (u "a timer") (Some (u "iVBORw0KGgo=")) None)
  = [Text (defaultFilePrompt ++ nl ++ nl ++ u "USER REQUEST / CONTEXT: "
           ++ u "a timer")].
Proof.
  exact (proj2 (proj2
    (attachment_needs_media_type (u "a timer") (Some (u "iVBORw0KGgo=")) None
       (answering (Resolved None) None))) eq_refl eq_refl).
Defined.

(** C6.  [refineApp] sends one request under the refinement system
    instruction, with three text parts: the fixed preamble, the current
    markup as it is, and the user instruction inside its fixed wrapper. *)
Theorem refineApp_request (currentHtml instruction : jsstring) (w : World) :
  calls (snd (refineApp currentHtml instruction w))
  = calls w ++
    [ {| model := GEMINI_MODEL;
         parts :=
           [ Text (u "Here is the current existing code:");
             Text currentHtml;
             Text (nl ++ nl ++ u "USER INSTRUCTION: " ++ instruction
                   ++ nl ++ nl ++ u "Return the full updated HTML file.") ];
         config := {| systemInstruction := REFINE_SYSTEM_INSTRUCTION;
                      thinkingBudget := 8192;
                      temperature := Some (3 # 10)%Q |} |} ].
Proof.
  rewrite refineApp_run; cbv zeta. destruct (remote w _); reflexivity.
Qed.

End Requests.

(** ** The live preview *)

Import Preview.

Section Exporting.

Lemma replace_non_alnum_ascii (s : jsstring) :
  forallb is_ascii (replace_non_alnum s) = true.
Proof.
  induction s as [|c s IH]; simpl; [reflexivity|].
  rewrite IH, andb_true_r. unfold is_alnum, is_ascii.
  destruct (N.leb_spec 48 c), (N.leb_spec c 57), (N.leb_spec 65 c),
    (N.leb_spec c 90), (N.leb_spec 97 c), (N.leb_spec c 122); simpl;
    try reflexivity; apply N.ltb_lt; lia.
Qed.

(** C7 (as amended).  For a Creation, [handleExport] offers a download of
    type [application/json] whose content is the indented JSON object
    with the keys [name], [html] and, when the Creation has an original
    image, [originalImage]; a Creation without one gives just [name] and
    [html].  The file name is the name with every code unit outside
    [A-Za-z0-9] replaced by an underscore, in lower case, followed by
    [_artifact.json]; for the name [Coffee Shop!!] it is
    [coffee_shop___artifact.json]. *)
Theorem handleExport_download (toLowerCase : jsstring -> jsstring)
    (c : Creation) :
  (forall s, forallb is_ascii s = true -> toLowerCase s = List.map lower_ascii s) ->
  handleExport toLowerCase (Some c)
  = Some {| content :=
              u "{" ++ nl
              ++ u "  " ++ dq ++ u "name" ++ dq ++ u ": "
              ++ JSON.QuoteJSONString (name c) ++ u "," ++ nl
              ++ u "  " ++ dq ++ u "html" ++ dq ++ u ": "
              ++ JSON.QuoteJSONString (html c)
              ++ match originalImage c with
                 | Some image =>
                     u "," ++ nl ++ u "  " ++ dq ++ u "originalImage" ++ dq
                     ++ u ": " ++ JSON.QuoteJSONString image
                 | None => []
                 end
              ++ nl ++ u "}";
            blobType := u "application/json";
            download :=
              List.map lower_ascii (replace_non_alnum (name c))
              ++ u "_artifact.json" |}
  /\ JSON.keys (creationObject c)
     = match originalImage c with
       | Some _ => [u "name"; u "html"; u "originalImage"]
       | None => [u "name"; u "html"]
       end
  /\ (name c = u "Coffee Shop!!" ->
      option_map download (handleExport toLowerCase (Some c))
      = Some (u "coffee_shop___artifact.json")).
Proof.
  intros Hlower. unfold handleExport, exportFileName.
  rewrite (Hlower _ (replace_non_alnum_ascii _)).
  split; [|split].
  - f_equal. f_equal.
    unfold JSON.stringify2, creationObject.
    destruct (originalImage c) as [image|];
      cbn [JSON.members JSON.SerializeJSONProperty JSON.join];
      change (JSON.QuoteJSONString (u "name")) with (dq ++ u "name" ++ dq);
      change (JSON.QuoteJSONString (u "html")) with (dq ++ u "html" ++ dq);
      change (JSON.QuoteJSONString (u "originalImage"))
        with (dq ++ u "originalImage" ++ dq);
      repeat rewrite <- app_assoc; reflexivity.
  - unfold creationObject. destruct (originalImage c); reflexivity.
  - intros ->. reflexivity.
Qed.

Lemma handleExport_download_witness :
  option_map download
    (handleExport (List.map lower_ascii)
       (Some {| name := u "Coffee Shop!!"; html := u "<p>menu</p>";
                originalImage := Some (u "data:image/png;base64,iVBORw0KGgo=") |}))
  = Some (u "coffee_shop___artifact.json").
Proof.
  exact (proj2 (proj2
    (handleExport_download (List.map lower_ascii)
       {| name := u "Coffee Shop!!"; html := u "<p>menu</p>";
          originalImage := Some (u "data:image/png;base64,iVBORw0KGgo=") |}
       (fun s _ => eq_refl))) eq_refl).
Defined.

(** C7 (as stated) fails: a Creation made from a text prompt has no
    original image, and its export has the keys [name] and [html] only. *)
Lemma handleExport_keys_counterexample :
  option_map content
    (handleExport (List.map lower_ascii)
       (Some {| name := u "Demo"; html := u "<p>hi</p>";
                originalImage := None |}))
  = Some (u "{" ++ nl
          ++ u "  " ++ dq ++ u "name" ++ dq ++ u ": " ++ dq ++ u "Demo" ++ dq
          ++ u "," ++ nl
          ++ u "  " ++ dq ++ u "html" ++ dq ++ u ": " ++ dq ++ u "<p>hi</p>" ++ dq
          ++ nl ++ u "}")
  /\ JSON.keys (creationObject {| name := u "Demo"; html := u "<p>hi</p>";
                                  originalImage := None |})
     = [u "name"; u "html"].
Proof. split; reflexivity. Qed.

End Exporting.

Section Analysis.

Variables (c : Creation) (w : World).

Lemma report_outcome : fst (analyzeCode (html c) w) = Returned (report c w).
Proof.
  unfold report. destruct (analyzeCode_report (html c) w) as (s & -> & _).
  reflexivity.
Qed.

Lemma report_truthy : truthy (report c w) = true.
Proof.
  unfold report. destruct (analyzeCode_report (html c) w) as (s & -> & Hs).
  exact Hs.
Qed.

(** With no call awaited, a click followed by a settlement is one
    uninterrupted run of the handler. *)
Lemma handleToggleAnalysis_run (p : Component) :
  awaiting p = [] ->
  let q := run [ClickAnalysis; AnalysisSettles] p in
  (state q, world q) = handleToggleAnalysis (creation p) (state p) (world p)
  /\ awaiting q = [] /\ creation q = creation p.
Proof.
  intros Ha. unfold handleToggleAnalysis, run. cbn [fold_left].
  destruct (handleToggleAnalysis_begin (creation p) (state p))
    as [st [code|]] eqn:Eb.
  - destruct (analyzeCode code (world p)) as [r w'] eqn:Ea.
    assert (H1 : step ClickAnalysis p
                 = {| creation := creation p; state := st;
                      awaiting := [r]; world := w' |}).
    { unfold step. rewrite Eb, Ea, Ha. reflexivity. }
    rewrite H1. repeat split.
  - assert (H1 : step ClickAnalysis p
                 = {| creation := creation p; state := st;
                      awaiting := []; world := world p |}).
    { unfold step. rewrite Eb, Ha. reflexivity. }
    rewrite H1. repeat split.
Qed.

Lemma step_fresh (e : Event) (p : Component) :
  fresh c w p -> sameCreation e = true ->
  if isClick e then inFlight c w (step e p) else fresh c w (step e p).
Proof.
  intros (Hc & Hw & Ha & Hr & Hi & Hs) He.
  destruct e as [| |c']; [| |discriminate He]; simpl isClick.
  - unfold step, handleToggleAnalysis_begin.
    rewrite Hc, Hs. simpl. rewrite Hr, Hi, Hw, Ha. simpl.
    destruct (analyzeCode (html c) w) as [r w'] eqn:E.
    repeat split; simpl; rewrite ?E; auto.
  - unfold step. rewrite Ha. repeat split; auto.
Qed.

Lemma step_inFlight (e : Event) (p : Component) :
  inFlight c w p -> sameCreation e = true ->
  inFlight c w (step e p) \/ settled c w (step e p).
Proof.
  intros (Hc & Hw & Ha & Hr & Hi) He.
  destruct e as [| |c']; [| |discriminate He].
  - left. unfold step, handleToggleAnalysis_begin. rewrite Hc.
    destruct (showAnalysis (state p)); simpl.
    + repeat split; auto.
    + rewrite Hr, Hi. simpl. repeat split; auto.
  - right. unfold step. rewrite Ha, report_outcome.
    repeat split; auto.
Qed.

Lemma step_settled (e : Event) (p : Component) :
  settled c w p -> sameCreation e = true ->
  settled c w (step e p) /\ world (step e p) = world p.
Proof.
  intros (Hc & Hw & Ha & Hr & Hi) He.
  destruct e as [| |c']; [| |discriminate He].
  - unfold step, handleToggleAnalysis_begin. rewrite Hc.
    destruct (showAnalysis (state p)); simpl.
    + repeat split; auto.
    + rewrite Hr, Hi. simpl. rewrite report_truthy. simpl.
      repeat split; auto.
  - unfold step. rewrite Ha. repeat split; auto.
Qed.


Lemma run_requested (es : list Event) (p : Component) :
  inFlight c w p \/ settled c w p -> forallb sameCreation es = true ->
  inFlight c w (run es p) \/ settled c w (run es p).
Proof.
  revert p; induction es as [|e es IH]; intros p Hp Hes; [exact Hp|].
  simpl in Hes; apply andb_true_iff in Hes as [He Hes].
  simpl. apply IH; [|exact Hes]. destruct Hp as [Hp|Hp].
  - apply step_inFlight; assumption.
  - right. apply step_settled; assumption.
Qed.

Lemma run_fresh (es : list Event) (p : Component) :
  fresh c w p -> forallb sameCreation es = true ->
  if existsb isClick es
  then inFlight c w (run es p) \/ settled c w (run es p)
  else fresh c w (run es p).
Proof.
  revert p; induction es as [|e es IH]; intros p Hp Hes; [exact Hp|].
  simpl in Hes; apply andb_true_iff in Hes as [He Hes].
  pose proof (step_fresh e p Hp He) as Hstep. simpl.
  destruct (isClick e); simpl.
  - apply run_requested; auto.
  - apply IH; assumption.
Qed.

Lemma mount_fresh : fresh c w (mount c w).
Proof. repeat split. Qed.







End Analysis.





(** * Further properties *)

(** ** What the cleanup removes *)

Section CleanupEnds.

(** X1.  The cleanup only takes away from the two ends of the text: what is
    left stands in the text as it was.  What goes at the front is nothing
    or begins with a fence; what goes at the back is nothing or exactly
    one fence, and nothing when the text does not end with a fence. *)
Theorem cleanup_trims_ends (s : jsstring) :
  exists a b,
    s = a ++ cleanup s ++ b
    /\ (a = [] \/ startsWith a fence = true)
    /\ (b = [] \/ b = fence)
    /\ (endsWith s fence = false -> b = [])
    /\ List.length (cleanup s) <= List.length s.
Proof.
  unfold cleanup.
  destruct (replace_head_ws_split fence_html s) as (a1 & H1 & Ha1).
  set (s1 := replace_head_ws fence_html s) in *.
  destruct (replace_head_ws_split fence s1) as (a2 & H2 & Ha2).
  set (s2 := replace_head_ws fence s1) in *.
  destruct (replace_tail_split fence s2) as (b & H3 & Hb).
  exists (a1 ++ a2), b.
  assert (Hs : s = (a1 ++ a2) ++ replace_tail fence s2 ++ b).
  { rewrite <- H3, <- app_assoc, <- H2. exact H1. }
  split; [exact Hs|]. split; [|split; [|split]].
  - destruct (startsWith s fence_html).
    + destruct Ha1 as (ws & ->). right.
      change fence_html with (fence ++ u "html").
      rewrite <- !app_assoc. apply startsWith_app.
    + subst a1. destruct (startsWith s1 fence).
      * destruct Ha2 as (ws & ->). right.
        change ([] ++ fence ++ ws) with (fence ++ ws). apply startsWith_app.
      * left. subst a2. reflexivity.
  - destruct (endsWith s2 fence); auto.
  - intros He. assert (E : endsWith s2 fence = false).
    { apply (endsWith_suffix (a1 ++ a2)).
      rewrite <- app_assoc, <- H2, <- H1. exact He. }
    rewrite E in Hb. exact Hb.
  - apply (f_equal (@List.length N)) in Hs.
    rewrite !length_app in Hs. lia.
Qed.

Lemma cleanup_shortens (s : jsstring) :
  fenced s = true -> List.length (cleanup s) < List.length s.
Proof.
  unfold fenced, cleanup. intros Hf.
  destruct (replace_head_ws_split fence_html s) as (a1 & H1 & Ha1).
  set (s1 := replace_head_ws fence_html s) in *.
  destruct (replace_head_ws_split fence s1) as (a2 & H2 & Ha2).
  set (s2 := replace_head_ws fence s1) in *.
  destruct (replace_tail_split fence s2) as (b & H3 & Hb).
  assert (L : List.length s
              = List.length a1 + List.length a2
                + List.length (replace_tail fence s2) + List.length b).
  { apply (f_equal (@List.length N)) in H1, H2, H3.
    rewrite !length_app in *. lia. }
  destruct (startsWith s fence_html) eqn:Eh.
  { destruct Ha1 as (ws & ->). rewrite length_app in L.
    change (List.length fence_html) with 7 in L. lia. }
  subst a1. simpl in H1. rewrite <- H1 in *.
  destruct (startsWith s fence) eqn:Es.
  { destruct Ha2 as (ws & ->). rewrite length_app in L.
    change (List.length fence) with 3 in L. lia. }
  subst a2. simpl in H2. rewrite <- H2 in *.
  simpl in Hf. rewrite Hf in Hb. subst b.
  change (List.length fence) with 3 in L. simpl in L. lia.
Qed.

(** X2.  The texts the cleanup leaves as they are are exactly the texts with
    no leading and no trailing fence: on any other text it is strictly
    shorter afterwards. *)
Theorem cleanup_fixed_iff_unfenced (s : jsstring) :
  (cleanup s = s <-> fenced s = false)
  /\ (fenced s = true -> List.length (cleanup s) < List.length s).
Proof.
  split; [|apply cleanup_shortens]. split.
  - intros H. destruct (fenced s) eqn:E; [|reflexivity].
    apply cleanup_shortens in E. rewrite H in E. lia.
  - apply cleanup_unfenced.
Qed.

End CleanupEnds.

(** ** What the operations do to the world *)

Section ServiceEffects.

Import Views.

(** X3.  Each of the three operations makes exactly one remote call, with no
    retry, whether it succeeds or not; it leaves the model and the
    caller's Creation alone; and it writes to the console only when the
    call fails: once, the caught error under its own label. *)
Theorem one_call_one_log (prompt currentHtml instruction code : jsstring)
    (fileBase64 mimeType : option jsstring) (w : World) :
  let g := snd (bringToLife prompt fileBase64 mimeType w) in
  let r := snd (refineApp currentHtml instruction w) in
  let a := snd (analyzeCode code w) in
  (calls g = calls w ++ [generateRequest prompt fileBase64 mimeType]
   /\ remote g = remote w /\ stored g = stored w
   /\ Gemini.console g
      = logged (u "Gemini Generation Error:") w
          (generateRequest prompt fileBase64 mimeType))
  /\ (calls r = calls w ++ [refineRequest currentHtml instruction]
      /\ remote r = remote w /\ stored r = stored w
      /\ Gemini.console r
         = logged (u "Refinement Error:") w
             (refineRequest currentHtml instruction))
  /\ (calls a = calls w ++ [analyzeRequest code]
      /\ remote a = remote w /\ stored a = stored w
      /\ Gemini.console a
         = logged (u "Analysis Error:") w (analyzeRequest code)).
Proof.
  cbv zeta. unfold logged.
  rewrite bringToLife_run, refineApp_run, analyzeCode_run; cbv zeta.
  repeat split;
    match goal with
    | |- context [remote w ?x] => destruct (remote w x); reflexivity
    end.
Qed.

Lemma defaultFilePrompt_truthy (s : jsstring) :
  truthy (defaultFilePrompt ++ s) = true.
Proof. reflexivity. Qed.

(** X4.  The instruction text that [bringToLife] sends is never empty, and a
    prompt with a character that is not white space is always at its end,
    as the user typed it. *)
Theorem textPart_carries_prompt (prompt : jsstring)
    (fileBase64 : option jsstring) :
  truthy (textPart prompt fileBase64) = true
  /\ (forallb is_white prompt = false ->
      exists before, textPart prompt fileBase64 = before ++ prompt).
Proof.
  rewrite textPart_spec. split.
  - destruct (truthy_opt fileBase64).
    + destruct (forallb is_white prompt);
        [reflexivity | apply defaultFilePrompt_truthy].
    + destruct prompt; reflexivity.
  - intros H. rewrite H. destruct (truthy_opt fileBase64).
    + exists (defaultFilePrompt ++ nl ++ nl ++ u "USER REQUEST / CONTEXT: ").
      rewrite <- !app_assoc. reflexivity.
    + exists []. destruct prompt; [discriminate H | reflexivity].
Qed.

Lemma textPart_carries_prompt_witness :
  exists before, textPart (u "a timer") None = before ++ u "a timer".
Proof.
  exact (proj2 (textPart_carries_prompt (u "a timer") None) eq_refl).
Defined.

End ServiceEffects.

(** ** The loading animation *)

Section LoadingSteps.

Import Loading.

Lemma loaderStep_bound (e : LoaderEvent) (l : Loader) :
  step l <= 3 -> step (loaderStep e l) <= 3.
Proof.
  intros H. destruct e as [b|]; simpl; [lia|].
  destruct (interval l); [|exact H]. simpl. unfold nextLoadingStep.
  destruct (Nat.ltb_spec (step l) 3); lia.
Qed.

Lemma runLoader_bound (es : list LoaderEvent) (l : Loader) :
  step l <= 3 -> step (runLoader es l) <= 3.
Proof.
  revert l; induction es as [|e es IH]; intros l H; [exact H|].
  simpl. apply IH, loaderStep_bound, H.
Qed.

Lemma runLoader_ticks (n k : nat) :
  runLoader (repeat IntervalFires n) {| step := k; interval := true |}
  = {| step := Nat.min (k + n) (Nat.max k 3); interval := true |}.
Proof.
  revert k; induction n as [|n IH]; intros k; simpl.
  - f_equal. lia.
  - rewrite IH. f_equal. unfold nextLoadingStep.
    destruct (Nat.ltb_spec k 3); lia.
Qed.

(** X5.  The loading step never passes 3, so the terminal shows the steps
    before the current one as done, the current one as running and the
    later ones as waiting, and the last step is never shown as done.
    After loading starts, [n] firings of the interval leave the step at
    the smaller of [n] and 3; while not loading the step stays at 0. *)
Theorem loading_step_bounded (es : list LoaderEvent) (n : nat) :
  let l := runLoader es initialLoader in
  step l <= 3
  /\ List.map snd (terminalSteps (step l))
     = repeat Check (step l) ++ [Pulse] ++ repeat Dot (3 - step l)
  /\ step (runLoader (LoadingIs true :: repeat IntervalFires n) l)
     = Nat.min n 3
  /\ step (runLoader (LoadingIs false :: repeat IntervalFires n) l) = 0.
Proof.
  cbv zeta. set (l := runLoader es initialLoader).
  assert (H : step l <= 3) by (apply runLoader_bound; simpl; lia).
  split; [exact H|]. split; [|split].
  - destruct (step l) as [|[|[|[|k]]]]; try reflexivity. lia.
  - simpl. rewrite runLoader_ticks. simpl. lia.
  - simpl. induction n as [|n IH]; [reflexivity | exact IH].
Qed.

End LoadingSteps.

(** ** The analysis panel *)

Section AnalysisPanel.

Import Views.

Variables (c : Creation) (w : World).

Lemma step_showAnalysis (e : Event) (p : Component) :
  creation p = Some c -> sameCreation e = true ->
  creation (step e p) = Some c
  /\ showAnalysis (state (step e p)) = xorb (isClick e) (showAnalysis (state p)).
Proof.
  intros Hc He. destruct e as [| |c']; [| |discriminate He].
  - unfold step, handleToggleAnalysis_begin. rewrite Hc.
    destruct (showAnalysis (state p)) eqn:Es; simpl; [auto|].
    destruct (negb (truthy_opt (analysisResult (state p)))
              && negb (isAnalyzing (state p)))%bool; simpl.
    + destruct (analyzeCode (html c) (Preview.world p)); simpl; auto.
    + auto.
  - unfold step. destruct (awaiting p) as [|r rest]; simpl; [auto|].
    split; [exact Hc|]. destruct r; reflexivity.
Qed.

Lemma run_showAnalysis (es : list Event) (p : Component) :
  creation p = Some c -> forallb sameCreation es = true ->
  showAnalysis (state (run es p))
  = xorb (Nat.odd (List.length (filter isClick es))) (showAnalysis (state p)).
Proof.
  revert p; induction es as [|e es IH]; intros p Hc Hes.
  - simpl. destruct (showAnalysis (state p)); reflexivity.
  - simpl in Hes; apply andb_true_iff in Hes as [He Hes].
    destruct (step_showAnalysis e p Hc He) as [Hc' Hs].
    simpl run. rewrite (IH _ Hc' Hes), Hs. simpl filter.
    destruct (isClick e); simpl List.length.
    + rewrite Nat.odd_succ, <- Nat.negb_odd.
      destruct (Nat.odd _), (showAnalysis (state p)); reflexivity.
    + reflexivity.
Qed.

(** X6.  The analysis button is a toggle: as long as the Creation stays, the
    panel is open exactly after an odd number of clicks, whatever calls
    settle in between. *)
Theorem analysis_button_toggles (es : list Event) :
  forallb sameCreation es = true ->
  showAnalysis (state (run es (mount c w)))
  = Nat.odd (List.length (filter isClick es)).
Proof.
  intros Hes. rewrite run_showAnalysis; [|reflexivity|exact Hes].
  simpl. apply xorb_false_r.
Qed.

(** X7.  As long as the Creation stays, the open analysis panel is never
    empty: it shows the spinner while the call is awaited and the report,
    which is not empty, once it is stored.  [isAnalyzing] holds exactly
    while a call is awaited. *)
Theorem analysis_panel_never_blank (es : list Event) :
  forallb sameCreation es = true ->
  let p := run es (mount c w) in
  (mainContent false (creation p) (state p) = AnalysisSpinner
   \/ mainContent false (creation p) (state p)
      = AnalysisText (Some (report c w))
   \/ showAnalysis (state p) = false)
  /\ truthy (report c w) = true
  /\ (isAnalyzing (state p) = true <-> awaiting p <> []).
Proof.
  intros Hes p. pose proof (run_fresh c w es _ (mount_fresh c w) Hes) as Hp.
  fold p in Hp. split; [|split; [apply report_truthy|]].
  - unfold mainContent. destruct (showAnalysis (state p)) eqn:Eo; [|auto].
    destruct (existsb isClick es).
    + destruct Hp as [(_ & _ & _ & _ & Hi)|(_ & _ & _ & Hr & Hi)];
        rewrite Hi; [left | right; left; rewrite Hr]; reflexivity.
    + destruct Hp as (_ & _ & _ & _ & _ & Hs). congruence.
  - destruct (existsb isClick es).
    + destruct Hp as [(_ & _ & Ha & _ & Hi)|(_ & _ & Ha & _ & Hi)];
        rewrite Hi, Ha; split; congruence.
    + destruct Hp as (_ & _ & Ha & _ & Hi & _).
      rewrite Hi, Ha; split; congruence.
Qed.

End AnalysisPanel.

Lemma analysis_button_toggles_witness :
  showAnalysis (state
    (run [ClickAnalysis; ClickAnalysis; AnalysisSettles; ClickAnalysis]
       (mount {| name := u "Demo"; html := u "<p>hi</p>";
                 originalImage := None |}
          (answering (Resolved (Some (u "fine"))) None))))
  = true.
Proof.
  exact (analysis_button_toggles
           {| name := u "Demo"; html := u "<p>hi</p>"; originalImage := None |}
           (answering (Resolved (Some (u "fine"))) None)
           [ClickAnalysis; ClickAnalysis; AnalysisSettles; ClickAnalysis]
           eq_refl).
Defined.

Lemma analysis_panel_never_blank_witness :
  truthy (report {| name := u "Demo"; html := u "<p>hi</p>";
                    originalImage := None |}
            (answering (Resolved (Some [])) None)) = true.
Proof.
  exact (proj1 (proj2
    (analysis_panel_never_blank
       {| name := u "Demo"; html := u "<p>hi</p>"; originalImage := None |}
       (answering (Resolved (Some [])) None)
       [ClickAnalysis; AnalysisSettles] eq_refl))).
Defined.

(** ** The refinement bar *)

Section Refinement.

Import Refine.

Lemma begin_cases (st : PreviewState) :
  (handleRefinementSubmit_begin st = (st, None)
   /\ (visible (refinementPrompt st) = false \/ isRefining st = true))
  \/ (handleRefinementSubmit_begin st
      = (setIsRefining true st, Some (refinementPrompt st))
      /\ visible (refinementPrompt st) = true /\ isRefining st = false).
Proof.
  unfold handleRefinementSubmit_begin, visible. rewrite trim_blank.
  destruct (forallb is_white (refinementPrompt st)); simpl; [auto|].
  destruct (isRefining st); simpl; auto.
Qed.

Lemma refineStep_refined (e : RefineEvent) (r : Refiner) :
  forallb visible (refined r) = true ->
  forallb visible (refined (refineStep e r)) = true.
Proof.
  intros H. destruct e as [s| |k o|c']; simpl.
  - destruct (isRefining (rstate r)); exact H.
  - destruct (begin_cases (rstate r)) as [[-> _]|[-> [Hv _]]]; simpl; [exact H|].
    rewrite forallb_app, H. simpl. rewrite Hv. reflexivity.
  - destruct (nth_error (pending r) k); [|exact H].
    destruct (handleRefinementSubmit_resume o (rstate r)). exact H.
  - exact H.
Qed.

(** X8.  Whatever is typed, submitted, settled or replaced, every instruction
    handed to [onRefine] has a character that is not white space: an empty
    or blank instruction is never submitted. *)
Theorem refine_never_blank (es : list RefineEvent) (c : option Creation) :
  forallb visible (refined (runRefiner es (mounted c))) = true.
Proof.
  assert (G : forall r, forallb visible (refined r) = true ->
                        forallb visible (refined (runRefiner es r)) = true).
  { induction es as [|e es IH]; intros r H; [exact H|].
    simpl. apply IH, refineStep_refined, H. }
  apply G. reflexivity.
Qed.

Lemma refineStep_idleOrOne (e : RefineEvent) (r : Refiner) :
  keepsCreation e = true -> idleOrOne r -> idleOrOne (refineStep e r).
Proof.
  intros He H. destruct e as [s| |k o|c']; [| | |discriminate He]; simpl.
  - destruct (isRefining (rstate r)) eqn:E; [exact H|].
    destruct H as [[Hp _]|[_ Hi]]; [|congruence]. left. auto.
  - destruct (begin_cases (rstate r)) as [[-> _]|[-> [_ Hi]]]; [exact H|].
    destruct H as [[Hp _]|[_ Hi']]; [|congruence].
    right. simpl. rewrite Hp. auto.
  - destruct H as [[Hp Hi]|[Hp Hi]]; rewrite Hp.
    + destruct k; simpl; left; auto.
    + destruct k as [|k]; simpl.
      * left. destruct o; simpl; auto.
      * destruct k; simpl; right; auto.
Qed.

Lemma runRefiner_idleOrOne (es : list RefineEvent) (r : Refiner) :
  forallb keepsCreation es = true -> idleOrOne r ->
  idleOrOne (runRefiner es r).
Proof.
  revert r; induction es as [|e es IH]; intros r Hes H; [exact H|].
  simpl in Hes; apply andb_true_iff in Hes as [He Hes].
  simpl. apply IH; [exact Hes|]. apply refineStep_idleOrOne; assumption.
Qed.

(** X9.  As long as the Creation stays, at most one refinement is awaited, and
    [isRefining] holds exactly while one is: a second submit during a
    refinement does nothing.  When the awaited call fails the error goes
    to the console, nothing is thrown on, and the prompt still holds the
    instruction that was submitted; when it succeeds the prompt is
    cleared.  In both cases [isRefining] is off afterwards. *)
Theorem refine_one_at_a_time (es : list RefineEvent) (c : option Creation)
    (e : JsError) :
  forallb keepsCreation es = true ->
  let r := runRefiner es (mounted c) in
  let failed := refineStep (RefineSettles 0 (Thrown e)) r in
  let done := refineStep (RefineSettles 0 (Returned tt)) r in
  List.length (pending r) <= 1
  /\ (isRefining (rstate r) = true <-> pending r <> [])
  /\ (isRefining (rstate r) = true ->
      refineStep Submits r = r
      /\ pending r = [refinementPrompt (rstate r)]
      /\ refinementPrompt (rstate failed) = refinementPrompt (rstate r)
      /\ rconsole failed = rconsole r ++ [e]
      /\ isRefining (rstate failed) = false /\ pending failed = []
      /\ refinementPrompt (rstate done) = []
      /\ rconsole done = rconsole r
      /\ isRefining (rstate done) = false /\ pending done = []).
Proof.
  intros Hes r.
  assert (H : idleOrOne r).
  { apply runRefiner_idleOrOne; [exact Hes|]. left. split; reflexivity. }
  cbv zeta. destruct H as [[Hp Hi]|[Hp Hi]]; rewrite Hp, Hi.
  - simpl. repeat split; try congruence; lia.
  - simpl. split; [lia|]. split; [split; congruence|]. intros _.
    split.
    + destruct (begin_cases (rstate r)) as [[Hb _]|[_ [_ Hn]]]; [|congruence].
      rewrite Hb. destruct r; reflexivity.
    + rewrite Hp. simpl. rewrite app_nil_r. repeat split.
Qed.

Lemma refine_one_at_a_time_witness :
  List.length
    (pending (runRefiner [Types (u "make it blue"); Submits; Submits]
                (mounted None))) <= 1.
Proof.
  exact (proj1
    (refine_one_at_a_time [Types (u "make it blue"); Submits; Submits] None
       (Error (u "quota")) eq_refl)).
Defined.

End Refinement.

(** ** PdfRenderer *)

Section Pdf.

Import PdfRenderer.

Lemma resume_inert (r : Run) (s : Settlement) (l : bool)
    (e : option jsstring) :
  inert r = true ->
  exists st logged,
    resume r s l e = (l, e, st, logged)
    /\ inert {| isCancelled := isCancelled r; stage := st |} = true.
Proof.
  unfold inert, resume. destruct r as [[|] st]; simpl.
  - intros _. destruct st, s as [canvas context|err]; simpl;
      try destruct (canvas && context)%bool; eauto.
  - destruct st; try discriminate. intros _. destruct s; eauto.
Qed.

Lemma resume_error (r : Run) (s : Settlement) (l : bool)
    (e : option jsstring) :
  snd (fst (fst (resume r s l e))) = e
  \/ snd (fst (fst (resume r s l e))) = Some couldNotRender.
Proof.
  unfold resume. destruct (stage r), s as [canvas context|err];
    try destruct (isCancelled r); try destruct (canvas && context)%bool;
    simpl; auto.
Qed.

Lemma forallb_update_nth {A} (P : A -> bool) (f : A -> A) (k : nat)
    (l : list A) :
  forallb P l = true ->
  (forall a, nth_error l k = Some a -> P (f a) = true) ->
  forallb P (update_nth k f l) = true.
Proof.
  revert k; induction l as [|a l IH]; intros k H Hf;
    [destruct k; reflexivity|].
  simpl in H; apply andb_true_iff in H as [Ha Hl].
  destruct k as [|k]; simpl.
  - rewrite (Hf a eq_refl), Hl. reflexivity.
  - rewrite Ha. apply IH; [exact Hl|]. intros b Hb. apply Hf. exact Hb.
Qed.

Lemma settles_inert (k : nat) (s : Settlement) (p : Renderer) :
  forallb inert (runs p) = true ->
  loading (pdfStep (Settles k s) p) = loading p
  /\ error (pdfStep (Settles k s) p) = error p
  /\ forallb inert (runs (pdfStep (Settles k s) p)) = true.
Proof.
  intros H. unfold pdfStep. destruct (nth_error (runs p) k) as [r|] eqn:E;
    [|auto].
  assert (Hr : inert r = true).
  { apply nth_error_In in E. rewrite forallb_forall in H. apply H, E. }
  destruct (resume_inert r s (loading p) (error p) Hr) as (st & lg & -> & Hi).
  simpl. repeat split. apply forallb_update_nth; [exact H|].
  intros a Ha. rewrite E in Ha. injection Ha as <-. exact Hi.
Qed.

Lemma settlements_inert (es : list PdfEvent) (p : Renderer) :
  forallb isSettlement es = true -> forallb inert (runs p) = true ->
  loading (runPdf es p) = loading p /\ error (runPdf es p) = error p.
Proof.
  revert p; induction es as [|e es IH]; intros p Hes H; [auto|].
  simpl in Hes; apply andb_true_iff in Hes as [He Hes].
  destruct e as [b| |k s]; try discriminate He.
  destruct (settles_inert k s p H) as (Hl & Herr & Hi).
  change (runPdf (Settles k s :: es) p)
    with (runPdf es (pdfStep (Settles k s) p)).
  destruct (IH _ Hes Hi) as [-> ->]. auto.
Qed.

Lemma cancel_inert (l : list Run) : forallb inert (List.map cancel l) = true.
Proof. induction l as [|r l IH]; simpl; auto. Qed.

(** X10.  After the component is unmounted, whatever the awaited promises of
    its runs do, neither [loading] nor [error] is set again. *)
Theorem pdf_unmounted_sets_nothing (es : list PdfEvent) (p : Renderer) :
  forallb isSettlement es = true ->
  let q := runPdf es (pdfStep Unmounts p) in
  loading q = loading p /\ error q = error p /\ render q = render p.
Proof.
  intros Hes q.
  destruct (settlements_inert es (pdfStep Unmounts p) Hes) as [Hl He].
  { apply cancel_inert. }
  fold q in Hl, He. unfold render. rewrite Hl, He. auto.
Qed.

Lemma pdf_unmounted_sets_nothing_witness :
  render (runPdf [Settles 0 (Failed (Error (u "network")))]
            (pdfStep Unmounts (pdfStep (EffectRuns true) initialRenderer)))
  = Canvas true.
Proof.
  exact (proj2 (proj2
    (pdf_unmounted_sets_nothing [Settles 0 (Failed (Error (u "network")))]
       (pdfStep (EffectRuns true) initialRenderer) eq_refl))).
Defined.

Lemma pdfStep_error (e : PdfEvent) (p : Renderer) (m : jsstring) :
  error p = Some m -> truthy m = true ->
  exists m', error (pdfStep e p) = Some m' /\ truthy m' = true.
Proof.
  intros He Hm. destruct e as [[|]| |k s]; simpl; eauto.
  destruct (nth_error (runs p) k) as [r|]; [|eauto].
  pose proof (resume_error r s (loading p) (error p)) as H.
  destruct (resume r s (loading p) (error p)) as [[[l e'] st] lg].
  simpl in *. destruct H as [->| ->]; eauto.
Qed.

(** X11.  The error is never cleared: once the error panel is shown it stays,
    whatever follows, also when a later document renders without fault. *)
Theorem pdf_error_stays (es : list PdfEvent) (p : Renderer) (m : jsstring) :
  render p = ErrorPanel m ->
  exists m', render (runPdf es p) = ErrorPanel m'.
Proof.
  intros H.
  assert (E : exists m, error p = Some m /\ truthy m = true).
  { unfold render in H. destruct (error p) as [x|]; [|discriminate].
    destruct (truthy x) eqn:Ex; [eauto | discriminate]. }
  clear H m. revert p E; induction es as [|e es IH]; intros p (m & He & Hm).
  - exists m. unfold render. simpl. rewrite He, Hm. reflexivity.
  - simpl. apply IH. eapply pdfStep_error; eauto.
Qed.

Lemma pdf_error_stays_witness :
  exists m',
    render (runPdf [EffectRuns true; Settles 1 (Fulfilled true true);
                    Settles 1 (Fulfilled true true);
                    Settles 1 (Fulfilled true true)]
              (pdfStep (EffectRuns false) initialRenderer))
    = ErrorPanel m'.
Proof.
  exact (pdf_error_stays _ (pdfStep (EffectRuns false) initialRenderer)
           notInitialized eq_refl).
Defined.

Lemma nth_error_last {A} (l : list A) (a : A) :
  nth_error (l ++ [a]) (List.length l) = Some a.
Proof. induction l; simpl; auto. Qed.

Lemma update_nth_last {A} (f : A -> A) (l : list A) (a : A) :
  update_nth (List.length l) f (l ++ [a]) = l ++ [f a].
Proof. induction l as [|b l IH]; simpl; [|rewrite IH]; reflexivity. Qed.

Lemma runPdf_app (es es' : list PdfEvent) (p : Renderer) :
  runPdf (es ++ es') p = runPdf es' (runPdf es p).
Proof. apply fold_left_app. Qed.

(** X12.  A run of the effect that nothing interrupts.  When the document and
    the page arrive but the canvas or its context is missing, the run
    ends without a word: [loading] stays on and no error is set, so the
    spinner turns until the effect runs again.  When all three promises
    resolve and the canvas is there, [loading] is off and the error is as
    it was before. *)
Theorem pdf_run_outcome (p : Renderer) (c1 c2 canvas context : bool)
    (es : list PdfEvent) :
  forallb isSettlement es = true ->
  let n := List.length (runs p) in
  let arrived := [EffectRuns true; Settles n (Fulfilled c1 c2);
                  Settles n (Fulfilled canvas context)] in
  let q := runPdf (arrived ++ es) p in
  let d := runPdf (arrived ++ [Settles n (Fulfilled c1 c2)]) p in
  (canvas && context = false ->
   loading q = true /\ error q = error p
   /\ (error p = None -> render q = Canvas true))
  /\ (canvas && context = true ->
      loading d = false /\ error d = error p).
Proof.
  intros Hes n arrived q d.
  assert (Ln : List.length (List.map cancel (runs p)) = n)
    by apply length_map.
  split; intros Hc.
  - subst q. rewrite runPdf_app. set (r3 := runPdf arrived p).
    assert (H3 : loading r3 = true /\ error r3 = error p
                 /\ forallb inert (runs r3) = true).
    { subst r3 arrived. unfold runPdf. cbn [fold_left].
      cbn [pdfStep]. cbn [runs loading error].
      rewrite <- Ln, nth_error_last. cbn [resume stage isCancelled].
      cbn [runs loading error]. rewrite update_nth_last.
      rewrite nth_error_last. cbn [resume stage isCancelled].
      rewrite Hc. cbn [runs loading error]. rewrite update_nth_last.
      repeat split. rewrite forallb_app, cancel_inert. reflexivity. }
    destruct H3 as (Hl & He & Hi).
    destruct (settlements_inert es r3 Hes Hi) as [Hl' He'].
    rewrite Hl in Hl'. rewrite He in He'.
    split; [exact Hl'|]. split; [exact He'|].
    intros Hn. unfold render. rewrite He', Hn, Hl'. reflexivity.
  - subst d arrived. unfold runPdf. cbn [app fold_left].
    cbn [pdfStep]. cbn [runs loading error].
    rewrite <- Ln, nth_error_last. cbn [resume stage isCancelled].
    cbn [runs loading error]. rewrite update_nth_last.
    rewrite nth_error_last. cbn [resume stage isCancelled].
    rewrite Hc. cbn [runs loading error]. rewrite update_nth_last.
    rewrite nth_error_last. cbn [resume stage isCancelled].
    cbn [runs loading error]. auto.
Qed.

Lemma pdf_run_outcome_witness :
  render (runPdf [EffectRuns true; Settles 0 (Fulfilled true true);
                  Settles 0 (Fulfilled false false);
                  Settles 0 (Fulfilled true true)] initialRenderer)
  = Canvas true.
Proof.
  exact (proj2 (proj2 (proj1
    (pdf_run_outcome initialRenderer true true false false
       [Settles 0 (Fulfilled true true)] eq_refl) eq_refl)) eq_refl).
Defined.

End Pdf.

(** ** InputArea *)

Section Input.

Import InputArea.

Lemma handleFile_allowed (p : Props) (st : State) (file : File) :
  forallb allowed (List.map (fun e => (p, e)) (handleFile st file)) = true.
Proof.
  unfold handleFile. destruct (accepted file) eqn:E; simpl.
  - unfold allowed; simpl. rewrite E. reflexivity.
  - reflexivity.
Qed.

Lemma handleTextSubmit_allowed (p : Props) (st : State) :
  forallb allowed (List.map (fun e => (p, e)) (handleTextSubmit p st)) = true.
Proof.
  unfold handleTextSubmit. rewrite trim_blank.
  destruct (negb (forallb is_white (prompt st))) eqn:Ev; simpl; [|reflexivity].
  destruct (disabled p) eqn:Ed; simpl; [reflexivity|].
  destruct (isGenerating p) eqn:Eg; simpl; [reflexivity|].
  unfold allowed; simpl. rewrite Ev, Ed, Eg. reflexivity.
Qed.

Lemma areaStep_allowed (e : AreaEvent) (a : Area) :
  forallb allowed (effects a) = true ->
  forallb allowed (effects (areaStep e a)) = true.
Proof.
  intros H. destruct e as [p|s|files|files| | | |key metaKey]; simpl;
    rewrite ?forallb_app, ?H; simpl; try reflexivity.
  - destruct files as [|file files]; [reflexivity|]. apply handleFile_allowed.
  - unfold handleDrop.
    destruct (disabled (props a) || isGenerating (props a))%bool;
      [simpl; rewrite app_nil_r; exact H|].
    destruct files as [|file files]; simpl;
      [rewrite app_nil_r; exact H|].
    rewrite forallb_app, H. apply handleFile_allowed.
  - apply handleTextSubmit_allowed.
  - unfold handleKeyDown.
    destruct (JS.eqb key (u "Enter") && metaKey)%bool;
      [apply handleTextSubmit_allowed | reflexivity].
Qed.

(** X13.  Whatever is typed, dropped, chosen or pressed and however the props
    change, the component calls [onGenerate] with a file only for an image
    or a PDF, and without a file only with a prompt that has a character
    that is not white space and while it is neither disabled nor
    generating; the only alert is the upload message. *)
Theorem input_forwards_only_valid (es : list AreaEvent) (p : Props) :
  forallb allowed (effects (runArea es (initialArea p))) = true.
Proof.
  assert (G : forall a, forallb allowed (effects a) = true ->
                        forallb allowed (effects (runArea es a)) = true).
  { induction es as [|e es IH]; intros a H; [exact H|].
    simpl. apply IH, areaStep_allowed, H. }
  apply G. reflexivity.
Qed.

(** X14.  While the component is disabled or generating, a drop and a text
    submit (button or Cmd+Enter) reach nothing outside, whatever is
    dropped and whatever the prompt holds; the drop still ends the
    dragging look. *)
Theorem input_blocked_while_busy (a : Area) (files : list File)
    (key : jsstring) (metaKey : bool) :
  (disabled (props a) || isGenerating (props a))%bool = true ->
  effects (areaStep (Dropped files) a) = effects a
  /\ isDragging (state (areaStep (Dropped files) a)) = false
  /\ effects (areaStep SendClicked a) = effects a
  /\ effects (areaStep (KeyPressed key metaKey) a) = effects a.
Proof.
  intros H.
  assert (T : handleTextSubmit (props a) (state a) = []).
  { unfold handleTextSubmit.
    destruct (disabled (props a)), (isGenerating (props a));
      try discriminate H; rewrite ?andb_false_r; reflexivity. }
  simpl. unfold handleDrop, handleKeyDown. rewrite H, T. simpl.
  rewrite app_nil_r.
  destruct (JS.eqb key (u "Enter") && metaKey)%bool; simpl;
    rewrite app_nil_r; auto.
Qed.

Lemma input_blocked_while_busy_witness :
  effects
    (areaStep (Dropped [{| fileName := u "a.png"; fileType := u "image/png" |}])
       (initialArea {| isGenerating := true; disabled := false |}))
  = [].
Proof.
  exact (proj1
    (input_blocked_while_busy
       (initialArea {| isGenerating := true; disabled := false |})
       [{| fileName := u "a.png"; fileType := u "image/png" |}]
       (u "Enter") true eq_refl)).
Defined.

Lemma cyclingStep_index (e : CyclingEvent) (c : Cycling) (k : nat) :
  index c = k mod 8 ->
  index (cyclingStep e c) = (if isTimeout e then S k else k) mod 8.
Proof.
  intros H. destruct e; unfold cyclingStep, isTimeout; cbn [index];
    [exact H|].
  rewrite H. change (List.length words) with 8.
  rewrite Nat.Div0.add_mod_idemp_l. f_equal. lia.
Qed.

Lemma runCycling_index (es : list CyclingEvent) (c : Cycling) (k : nat) :
  index c = k mod 8 ->
  index (runCycling es c) = (k + List.length (filter isTimeout es)) mod 8.
Proof.
  revert c k; induction es as [|e es IH]; intros c k H.
  - cbn [runCycling fold_left filter List.length].
    rewrite Nat.add_0_r. exact H.
  - change (runCycling (e :: es) c) with (runCycling es (cyclingStep e c)).
    rewrite (IH _ _ (cyclingStep_index e c k H)).
    cbn [filter]. destruct (isTimeout e); cbn [List.length]; f_equal; lia.
Qed.

(** X15.  The index of the cycling text counts the words shown so far modulo
    the number of words, so it always points at one of the eight words
    and is back where it was after eight of them. *)
Theorem cycling_index_in_range (es : list CyclingEvent) :
  let c := runCycling es initialCycling in
  index c = List.length (filter isTimeout es) mod 8
  /\ index c < List.length words
  /\ (exists word, nth_error words (index c) = Some word)
  /\ index (runCycling (repeat TimeoutFires 8) c) = index c.
Proof.
  cbv zeta.
  assert (H : index (runCycling es initialCycling)
              = List.length (filter isTimeout es) mod 8).
  { rewrite (runCycling_index es initialCycling 0); [|reflexivity].
    reflexivity. }
  assert (L : index (runCycling es initialCycling) < List.length words).
  { rewrite H. change (List.length words) with 8.
    apply Nat.mod_upper_bound. lia. }
  split; [exact H|]. split; [exact L|]. split.
  - destruct (nth_error words (index (runCycling es initialCycling))) eqn:E;
      [eauto|]. apply nth_error_None in E. lia.
  - rewrite (runCycling_index _ _ _ H).
    change (List.length (filter isTimeout (repeat TimeoutFires 8))) with (1 * 8).
    rewrite Nat.Div0.mod_add. symmetry; exact H.
Qed.

End Input.

(** ** ErrorBoundary *)

Section Boundary.

Import ErrorBoundary.

(** X16.  The boundary shows what the last event left: its children at the
    start and after Try Again, whatever was caught before; and after an
    error the fallback with the message of that error, or with the
    standard sentence when the message is empty.  The fallback text is
    never empty. *)
Theorem boundary_shows_last (es : list BoundaryEvent) :
  ErrorBoundary.render (runBoundary es ErrorBoundary.initialState)
  = match last es TryAgain with
    | TryAgain => Children
    | ChildThrows e =>
        Fallback (if truthy (message e) then message e else unexpected)
    end
  /\ (forall text,
        ErrorBoundary.render (runBoundary es ErrorBoundary.initialState)
        = Fallback text -> truthy text = true).
Proof.
  assert (G : forall st,
            ErrorBoundary.render (runBoundary es st)
            = match es with
              | [] => ErrorBoundary.render st
              | _ :: _ =>
                  match last es TryAgain with
                  | TryAgain => Children
                  | ChildThrows e =>
                      Fallback (if truthy (message e) then message e
                                else unexpected)
                  end
              end).
  { induction es as [|e es IH]; intros st; [reflexivity|].
    simpl runBoundary. rewrite IH. destruct es as [|e' es]; [|reflexivity].
    destruct e as [[m]|]; reflexivity. }
  rewrite G. split.
  - destruct es; reflexivity.
  - intros text. destruct es as [|e es]; [discriminate|].
    destruct (last (e :: es) TryAgain) as [[m]|]; [|discriminate].
    intros H; injection H as <-. simpl.
    destruct (truthy m) eqn:E; [exact E | reflexivity].
Qed.

End Boundary.

(** ** The name of the exported file *)

Section ExportName.

Import Views.

Lemma lower_name_unit (c : N) :
  isNameUnit (lower_ascii (if is_alnum c then c else 95%N)) = true.
Proof.
  destruct (is_alnum c) eqn:E; [|reflexivity].
  unfold is_alnum in E. unfold isNameUnit, lower_ascii.
  destruct (N.leb 65 c && N.leb c 90)%bool eqn:U.
  - apply andb_true_iff in U as [U1 U2]. apply N.leb_le in U1, U2.
    assert (L1 : N.leb 97 (c + 32) = true) by (apply N.leb_le; lia).
    assert (L2 : N.leb (c + 32) 122 = true) by (apply N.leb_le; lia).
    rewrite L1, L2. simpl. rewrite orb_true_r. reflexivity.
  - rewrite orb_false_r in E. apply orb_true_iff in E as [E|E]; rewrite E.
    + reflexivity.
    + simpl. rewrite orb_true_r. reflexivity.
Qed.

(** X17.  The name of the exported file is as long as the Creation's name plus
    the 14 characters of [_artifact.json], and before that ending it holds
    only lower-case letters, digits and underscores: no separator, dot or
    space of the Creation's name gets into it. *)
Theorem export_name_is_safe (toLowerCase : jsstring -> jsstring)
    (c : Creation) :
  (forall s, forallb is_ascii s = true -> toLowerCase s = List.map lower_ascii s) ->
  exists stem,
    exportFileName toLowerCase c = stem ++ u "_artifact.json"
    /\ List.length stem = List.length (name c)
    /\ forallb isNameUnit stem = true
    /\ List.length (exportFileName toLowerCase c) = List.length (name c) + 14.
Proof.
  intros Hlower. unfold exportFileName.
  rewrite (Hlower _ (replace_non_alnum_ascii _)).
  exists (List.map lower_ascii (replace_non_alnum (name c))).
  unfold replace_non_alnum. rewrite length_app, !length_map.
  repeat split. rewrite map_map, forallb_forall. intros x Hx.
  apply in_map_iff in Hx as (y & <- & _). apply lower_name_unit.
Qed.

Lemma export_name_is_safe_witness :
  exists stem,
    exportFileName (List.map lower_ascii)
      {| name := u "../My App v2.html"; html := []; originalImage := None |}
    = stem ++ u "_artifact.json"
    /\ List.length stem = 17
    /\ forallb isNameUnit stem = true
    /\ List.length (exportFileName (List.map lower_ascii)
          {| name := u "../My App v2.html"; html := [];
             originalImage := None |}) = 17 + 14.
Proof.
  exact (export_name_is_safe (List.map lower_ascii)
           {| name := u "../My App v2.html"; html := []; originalImage := None |}
           (fun s _ => eq_refl)).
Defined.

End ExportName.

(** ** The lines of the exported file *)

Section ExportLines.

Import Views JSON.

Lemma hex_digit_printable (d : N) : N.leb 32 (hex_digit d) = true.
Proof.
  unfold hex_digit. destruct (N.ltb d 10); apply N.leb_le; lia.
Qed.

Lemma unicodeEscape_printable (c : N) :
  forallb (N.leb 32) (unicodeEscape c) = true.
Proof.
  unfold unicodeEscape. rewrite forallb_app. cbn [forallb].
  rewrite !hex_digit_printable. reflexivity.
Qed.

Lemma quote_unit_printable (c : N) :
  forallb (N.leb 32) (quote_unit c) = true.
Proof.
  unfold quote_unit.
  repeat match goal with
         | |- context [N.eqb c ?k] => destruct (N.eqb c k); [reflexivity|]
         end.
  destruct (N.ltb_spec c 32) as [|H]; cbn [orb].
  - apply unicodeEscape_printable.
  - destruct (is_trail c); [apply unicodeEscape_printable|].
    cbn [forallb]. rewrite andb_true_r. apply N.leb_le, H.
Qed.

Lemma quote_body_printable (s : jsstring) :
  forallb (N.leb 32) (quote_body s) = true.
Proof.
  assert (G : forall n s, List.length s <= n ->
                          forallb (N.leb 32) (quote_body s) = true).
  { clear s. induction n as [|n IH]; intros [|c s] L; simpl in L;
      try reflexivity; try lia.
    cbn [quote_body]. destruct (is_lead c) eqn:El.
    - assert (Hc : N.leb 32 c = true).
      { unfold is_lead in El. apply andb_true_iff in El as [El _].
        apply N.leb_le in El. apply N.leb_le. lia. }
      destruct s as [|d s'].
      + apply unicodeEscape_printable.
      + destruct (is_trail d) eqn:Et.
        * assert (Hd : N.leb 32 d = true).
          { unfold is_trail in Et. apply andb_true_iff in Et as [Et _].
            apply N.leb_le in Et. apply N.leb_le. lia. }
          cbn [forallb]. rewrite Hc, Hd. apply IH. simpl in L. lia.
        * rewrite forallb_app, unicodeEscape_printable.
          apply (IH (d :: s')). lia.
    - rewrite forallb_app, quote_unit_printable. apply IH. lia. }
  apply (G (List.length s)). lia.
Qed.


Lemma lineFeeds_printable (s : jsstring) :
  forallb (N.leb 32) s = true -> lineFeeds s = 0.
Proof.
  unfold lineFeeds. induction s as [|c s IH]; [reflexivity|].
  cbn [forallb filter]. rewrite andb_true_iff. intros [Hc Hs].
  destruct (N.eqb_spec 10 c) as [<-|_]; [discriminate Hc | apply IH, Hs].
Qed.

Lemma lineFeeds_quoted (s : jsstring) : lineFeeds (QuoteJSONString s) = 0.
Proof.
  apply lineFeeds_printable. unfold QuoteJSONString.
  rewrite !forallb_app, quote_body_printable. reflexivity.
Qed.








End ExportLines.
